(** * The entity codec of the versioned store

    A shallow embedding of [EntityCodec] (with its two conversion
    functions [substrateToPlain] and [plainToSubstrate]) and of
    [registerVersionedStorePermissionsTypes], followed by the
    properties of the codec.

    Conventions of the embedding:
    - a plain JavaScript value is a [JsVal]: [undefined], [null], a
      boolean, a number, a string, an array or a plain object; numbers are
      the integral ones, held as [Z] (the string form of a number that is
      not integral is never one of the strings the code compares with);
    - a function that may [throw] returns an [Outcome];
    - a method of the class, which reads the two maps of its instance and
      writes to the console, is a computation of the monad [M] over the
      instance's fields;
    - of the libraries, [camelCase] of lodash and the type registry are
      parameters; [toNumber] of bn.js and the codec classes of
      [@polkadot/types] are modelled by what the code uses of them. *)

From Stdlib Require Import ZArith Lia Ascii String.
From stdpp Require Import gmap strings list pretty.

Local Set Warnings "-register-all".

Local Open Scope Z_scope.
Local Open Scope string_scope.

(** ** Plain JavaScript values *)

Inductive JsVal : Type :=
| JUndefined
| JNull
| JBool (b : bool)
| JNum (n : Z)
| JStr (s : string)
| JArr (xs : list JsVal)
| JObj (fields : list (string * JsVal)).

(** The [typeof] operator. *)
Definition typeof (v : JsVal) : string :=
  match v with
  | JUndefined => "undefined"
  | JNull => "object"
  | JBool _ => "boolean"
  | JNum _ => "number"
  | JStr _ => "string"
  | JArr _ => "object"
  | JObj _ => "object"
  end.

(** ** Exceptions *)

Inductive JsError : Type :=
| Error (message : string)
| TypeError (message : string).

Inductive Outcome (A : Type) : Type :=
| Return (a : A)
| Throw (e : JsError).
Arguments Return {A} a.
Arguments Throw {A} e.

Definition obind {A B} (m : Outcome A) (k : A -> Outcome B) : Outcome B :=
  match m with
  | Return a => k a
  | Throw e => Throw e
  end.

Declare Scope outcome_scope.
Delimit Scope outcome_scope with outcome.
Notation "'let!' x ':=' m 'in' k" := (obind m (fun x => k))
  (at level 10, x pattern, m at level 100, k at level 200) : outcome_scope.
Local Open Scope outcome_scope.

(** [arr.map(f)] for a callback that may throw: the first exception ends
    the iteration. *)
Fixpoint omap {A B} (f : A -> Outcome B) (l : list A) : Outcome (list B) :=
  match l with
  | [] => Return []
  | x :: l' =>
      let! y := f x in
      let! ys := omap f l' in
      Return (y :: ys)
  end.

(** ** String conversion *)

(** The Number value nearest to the positive integer [x]: [x] rounded to
    53 significant bits, ties to the even significand. *)
Definition to_double (x : Z) : Z :=
  let bits := (Z.log2 x + 1)%Z in
  if (bits <=? 53)%Z then x
  else
    let shift := (bits - 53)%Z in
    let q := (x / 2 ^ shift)%Z in
    let r := (x mod 2 ^ shift)%Z in
    let half := (2 ^ (shift - 1))%Z in
    let q' := if ((half <? r)%Z || ((r =? half)%Z && Z.odd q))%bool then (q + 1)%Z else q in
    (q' * 2 ^ shift)%Z.

(** The integer [s * 10 ^ e] with the fewest significant digits that is
    read back as the Number [x]: the greatest exponent [e] is tried first;
    of two such integers with the same exponent the one nearer to [x] is
    taken, and the one with [s] even if they are as near. *)
Fixpoint shortest (x : Z) (e : nat) : Z :=
  match e with
  | O => x
  | S e' =>
      let p := (10 ^ Z.of_nat e)%Z in
      let lo := (x / p * p)%Z in
      let hi := (lo + p)%Z in
      match (to_double lo =? x)%Z, (to_double hi =? x)%Z with
      | true, true =>
          if (x - lo <? hi - x)%Z then lo
          else if (hi - x <? x - lo)%Z then hi
          else if Z.even (x / p) then lo else hi
      | true, false => lo
      | false, true => hi
      | false, false => shortest x e'
      end
  end.

Fixpoint strip_zeros (reversed : list ascii) : list ascii :=
  match reversed with
  | "0"%char :: reversed' => strip_zeros reversed'
  | _ => reversed
  end.

(** The digits without the zeros at their end. *)
Definition significand (digits : string) : string :=
  string_of_list_ascii (rev (strip_zeros (rev (list_ascii_of_string digits)))).

(** The exponent form of an integer of more than 21 digits. *)
Definition exponential (digits : string) : string :=
  let n := Z.of_nat (String.length digits) in
  match significand digits with
  | String c EmptyString => String c "e+" +:+ pretty (n - 1)%Z
  | String c rest => String c ("." +:+ rest) +:+ "e+" +:+ pretty (n - 1)%Z
  | EmptyString => digits
  end.

Definition positive_toString (x : Z) : string :=
  if (x <=? 2 ^ 53)%Z then pretty x
  else
    let d := to_double x in
    if (2 ^ 1024 <=? d)%Z then "Infinity"
    else
      let digits := pretty (shortest d (Z.to_nat (Z.log2 d) + 1)) in
      if (String.length digits <=? 21)%nat then digits else exponential digits.

(** [Number.prototype.toString] of an integral number. [JNum n] stands
    for the Number value of the numeric literal [n]: an integer up to
    [2 ^ 53] in absolute value is printed digit by digit; a greater one is
    read as the nearest Number and printed with the fewest digits that
    are read back as this Number, in exponent form from [10 ^ 21] on. *)
Definition Number_toString (n : Z) : string :=
  match n with
  | Z0 => "0"
  | Zpos _ => positive_toString n
  | Zneg _ => "-" +:+ positive_toString (- n)
  end.

(** [Array.prototype.join] with the separator [","]. *)
Fixpoint join_comma (parts : list string) : string :=
  match parts with
  | [] => ""
  | [p] => p
  | p :: rest => p +:+ "," +:+ join_comma rest
  end.

(** [o.hasOwnProperty(key)]. *)
Definition has_own_property (fields : list (string * JsVal)) (key : string) : bool :=
  existsb (fun field => String.eqb (fst field) key) fields.

(** String conversion, as performed by [+] with a string and by template
    literals. An element of an array that is [null] or [undefined] is
    printed as the empty string by [join]. A plain object is printed by
    [Object.prototype.toString], unless it has a [toString] property of its
    own: no plain value is a function, so that neither this property nor
    [valueOf] gives a primitive value, and the conversion is a
    [TypeError]. *)
Fixpoint ToString (v : JsVal) : Outcome string :=
  match v with
  | JUndefined => Return "undefined"
  | JNull => Return "null"
  | JBool true => Return "true"
  | JBool false => Return "false"
  | JNum n => Return (Number_toString n)
  | JStr s => Return s
  | JArr xs =>
      let! parts :=
        (fix elems (l : list JsVal) : Outcome (list string) :=
           match l with
           | [] => Return []
           | x :: l' =>
               let! part :=
                 match x with
                 | JUndefined | JNull => Return ""
                 | _ => ToString x
                 end in
               let! parts := elems l' in
               Return (part :: parts)
           end) xs in
      Return (join_comma parts)
  | JObj fields =>
      if has_own_property fields "toString"
      then Throw (TypeError "Cannot convert object to primitive value")
      else Return "[object Object]"
  end.

(** [value.toString()] on a string or a number. *)
Definition primitive_toString (v : JsVal) : string :=
  match v with
  | JStr s => s
  | JNum n => Number_toString n
  | _ => ""
  end.

(** [String.prototype.toLowerCase], on the letters A to Z. No character
    outside ASCII lower-cases to a letter of ["true"], ["yes"] or ["1"]. *)
Definition lower_ascii (c : ascii) : ascii :=
  let n := nat_of_ascii c in
  if ((65 <=? n)%nat && (n <=? 90)%nat)%bool then ascii_of_nat (n + 32) else c.

Fixpoint toLowerCase (s : string) : string :=
  match s with
  | EmptyString => EmptyString
  | String c s' => String (lower_ascii c) (toLowerCase s')
  end.

(** [Array.prototype.indexOf(x) >= 0] on an array of strings. *)
Fixpoint indexOf_ge_0 (arr : list string) (x : string) : bool :=
  match arr with
  | [] => false
  | y :: arr' => if String.eqb y x then true else indexOf_ge_0 arr' x
  end.

(** ** Codec values, as [substrateToPlain] tells them apart *)

(** A codec object is an instance of [Text], of [BN] (all the integer
    codecs), of [bool], of [Vec], or of some other class, of which only
    the result of [toString()] is used. *)
Inductive Codec : Type :=
| CText (s : string)
| CBN (n : Z)
| CBool (b : bool)
| CVec (ys : list Codec)
| COther (str : string).

(** What a variable declared [x: Codec] may hold. *)
Inductive CodecRef : Type :=
| undefined
| null
| obj (c : Codec).

(** [BN.prototype.toNumber] of bn.js: the value itself when it fits in 53
    bits; otherwise its assertion fails, which throws an [Error]. *)
Definition BN_toNumber (n : Z) : Outcome Z :=
  if (Z.abs n <? 2 ^ 53)%Z then Return n
  else Throw (Error "Number can only safely store up to 53 bits").

(** [typeof x !== undefined]: [typeof] yields a string, which is never the
    value [undefined], so the test holds for every [x]. *)
Definition typeof_is_not_undefined_value (x : CodecRef) : bool := true.

Definition is_not_null (x : CodecRef) : bool :=
  match x with
  | null => false
  | _ => true
  end.

(** [substrateToPlain] on a codec object. An object passes the guard of
    the last branch, so that one of no tested class gives [x.toString()]. *)
Fixpoint substrateToPlain_obj (x : Codec) : Outcome JsVal :=
  match x with
  | CText s => Return (JStr s)
  | CBN n => let! r := BN_toNumber n in Return (JNum r)
  | CBool b => Return (JBool b)
  | CVec ys =>
      let! rs :=
        (fix map_ys (l : list Codec) : Outcome (list JsVal) :=
           match l with
           | [] => Return []
           | y :: l' =>
               let! r := substrateToPlain_obj y in
               let! rs := map_ys l' in
               Return (r :: rs)
           end) ys in
      Return (JArr rs)
  | COther str => Return (JStr str)
  end.

(** No [instanceof] test holds of [undefined] or [null]; they reach the
    last branch, where [x.toString()] on [undefined] is a [TypeError]. *)
Definition substrateToPlain (x : CodecRef) : Outcome JsVal :=
  match x with
  | obj c => substrateToPlain_obj c
  | _ =>
      if (typeof_is_not_undefined_value x && is_not_null x)%bool
      then Throw (TypeError "Cannot read property 'toString' of undefined")
      else Return JUndefined
  end.

(** ** Typed property values: the output of the encoder *)

(** Modelled from the spec: the classes of [./PropertyValue], which are
    not among the sources, one per property type name. In the words of the
    spec the encoder wraps the input value directly into the matching
    variant, trusting the caller's representation, without validation: a
    typed value holds the argument its constructor was given in
    [plainToSubstrate], and the construction returns for every argument. *)
Module PV.
Inductive PropertyValueEnum : Type :=
| None
| Bool (value : bool)
| Uint16 (value : JsVal)
| Uint32 (value : JsVal)
| Uint64 (value : JsVal)
| Int16 (value : JsVal)
| Int32 (value : JsVal)
| Int64 (value : JsVal)
| Text (value : JsVal)
| Internal (value : JsVal)
| BoolVec (value : list bool)
| Uint16Vec (value : JsVal)
| Uint32Vec (value : JsVal)
| Uint64Vec (value : JsVal)
| Int16Vec (value : JsVal)
| Int32Vec (value : JsVal)
| Int64Vec (value : JsVal)
| TextVec (value : JsVal)
| InternalVec (value : JsVal).
End PV.

(** [new PropertyValue({ [propType]: typeEnum })]. *)
Record PropertyValue : Type := mkPropertyValue {
  pv_type : string;
  pv_value : PV.PropertyValueEnum
}.

(** The closure [valueAsBool] of [plainToSubstrate]. It takes no argument:
    it reads the variable [value] of the enclosing call and, in its first
    branch, assigns to it. The variable is threaded through: the result is
    the boolean and the new content of [value]. *)
Definition valueAsBool (value : JsVal) : Outcome (bool * JsVal) :=
  if (String.eqb (typeof value) "string" || String.eqb (typeof value) "number")%bool
  then
    let value := toLowerCase (primitive_toString value) in
    if indexOf_ge_0 ["true"; "yes"; "1"] value
    then Return (true, JStr value)
    else Return (false, JStr value)
  else if String.eqb (typeof value) "boolean"
  then
    match value with
    | JBool b => Return (b, value)
    | _ => Return (false, value)
    end
  else
    let! shown := ToString value in
    Throw (Error ("Unsupported representation of a boolean value: " +:+ shown)).

(** [arr.map(valueAsBool)]: one call of [valueAsBool] per element of
    [arr]. The element that [map] passes is not a parameter of
    [valueAsBool], which reads [value] at every call. *)
Fixpoint map_valueAsBool (arr : list JsVal) (value : JsVal) : Outcome (list bool * JsVal) :=
  match arr with
  | [] => Return ([], value)
  | _ :: arr' =>
      let! (b, value) := valueAsBool value in
      let! (bs, value) := map_valueAsBool arr' value in
      Return (b :: bs, value)
  end.

(** The closure [valueAsBoolArr]: [(value as []).map(valueAsBool)]. Only an
    array has a [map] method among the plain values. *)
Definition valueAsBoolArr (value : JsVal) : Outcome (list bool * JsVal) :=
  match value with
  | JArr arr => map_valueAsBool arr value
  | JUndefined | JNull => Throw (TypeError "Cannot read property 'map' of undefined")
  | _ => Throw (TypeError "value.map is not a function")
  end.

(** A [switch] statement over string labels: the first label that is equal
    to the scrutinee selects its branch, the [default] branch is taken when
    there is none. *)
Fixpoint switch {A} (scrutinee : string) (cases : list (string * A)) (default : A) : A :=
  match cases with
  | [] => default
  | (label, branch) :: cases' =>
      if String.eqb scrutinee label then branch else switch scrutinee cases' default
  end.

Definition plainToSubstrate (propType : string) (value : JsVal) : Outcome PropertyValue :=
  let ok (typeEnum : PV.PropertyValueEnum) := Return (mkPropertyValue propType typeEnum) in
  switch propType
    [ (* Primitives: *)
      ("None", ok PV.None);
      ("Bool", let! (b, _) := valueAsBool value in ok (PV.Bool b));
      ("Uint16", ok (PV.Uint16 value));
      ("Uint32", ok (PV.Uint32 value));
      ("Uint64", ok (PV.Uint64 value));
      ("Int16", ok (PV.Int16 value));
      ("Int32", ok (PV.Int32 value));
      ("Int64", ok (PV.Int64 value));
      ("Text", ok (PV.Text value));
      ("Internal", ok (PV.Internal value));
      (* Vectors: *)
      ("BoolVec", let! (bs, _) := valueAsBoolArr value in ok (PV.BoolVec bs));
      ("Uint16Vec", ok (PV.Uint16Vec value));
      ("Uint32Vec", ok (PV.Uint32Vec value));
      ("Uint64Vec", ok (PV.Uint64Vec value));
      ("Int16Vec", ok (PV.Int16Vec value));
      ("Int32Vec", ok (PV.Int32Vec value));
      ("Int64Vec", ok (PV.Int64Vec value));
      ("TextVec", ok (PV.TextVec value));
      ("InternalVec", ok (PV.InternalVec value)) ]
    (Throw (Error ("Unknown property type name: " +:+ propType))).

(** The fixed set of property type names: the labels of the [switch]. *)
Definition primitiveTypeNames : list string :=
  ["None"; "Bool"; "Uint16"; "Uint32"; "Uint64"; "Int16"; "Int32"; "Int64";
   "Text"; "Internal"].

Definition vectorTypeNames : list string :=
  ["BoolVec"; "Uint16Vec"; "Uint32Vec"; "Uint64Vec"; "Int16Vec"; "Int32Vec";
   "Int64Vec"; "TextVec"; "InternalVec"].

Definition propertyTypeNames : list string :=
  primitiveTypeNames ++ vectorTypeNames.

Definition propNameToJsFieldStyle (camelCase : string -> string)
    (humanFriendlyPropName : string) : string :=
  camelCase humanFriendlyPropName.

Definition isInternalProp (field_type : string) : bool :=
  String.eqb field_type "Internal".

Definition isInternalVecProp (field_type : string) : bool :=
  String.eqb field_type "InternalVec".

(** ** Methods: state, console and exceptions *)

(** One call of [console.error(message, err)]. *)
Record LogEntry : Type := ConsoleError {
  log_message : string;
  log_err : JsError
}.

(** The state a method runs in: the fields of its object and the lines
    written to the console so far. *)
Record World (St : Type) : Type := mkWorld {
  this : St;
  console : list LogEntry
}.
Arguments mkWorld {St} this console.
Arguments this {St} w.
Arguments console {St} w.

(** A computation that reads and writes the state and either returns a
    value or throws; the state reached is kept in both cases. *)
Definition M (St A : Type) : Type := World St -> Outcome A * World St.

Definition ret {St A} (a : A) : M St A := fun w => (Return a, w).

Definition bind {St A B} (m : M St A) (k : A -> M St B) : M St B :=
  fun w =>
    match m w with
    | (Return a, w') => k a w'
    | (Throw e, w') => (Throw e, w')
    end.

Definition lift {St A} (o : Outcome A) : M St A := fun w => (o, w).

Definition gets {St A} (f : St -> A) : M St A := fun w => (Return (f (this w)), w).

Definition modify {St} (f : St -> St) : M St unit :=
  fun w => (Return tt, mkWorld (f (this w)) (console w)).

Definition console_error {St} (message : string) (err : JsError) : M St unit :=
  fun w => (Return tt, mkWorld (this w) (console w ++ [ConsoleError message err])%list).

(** [try { body } catch (err) { handler }]. *)
Definition try_catch {St A} (body : M St A) (handler : JsError -> M St A) : M St A :=
  fun w =>
    match body w with
    | (Return a, w') => (Return a, w')
    | (Throw err, w') => handler err w'
    end.

Declare Scope method_scope.
Delimit Scope method_scope with method.
Notation "'do!' x ':=' m 'in' k" := (bind m (fun x => k))
  (at level 10, x pattern, m at level 100, k at level 200) : method_scope.
Local Open Scope method_scope.

(** [arr.forEach((x, index) => f)] and [arr.map] used for its effects,
    with the index counted from [index]. *)
Fixpoint forEach_from {St A} (index : nat) (arr : list A) (f : A -> nat -> M St unit) : M St unit :=
  match arr with
  | [] => ret tt
  | x :: arr' =>
      do! _ := f x index in
      forEach_from (S index) arr' f
  end.

(** A loop whose body updates a local variable [acc]. *)
Fixpoint foldM {St A B} (f : B -> A -> M St B) (acc : B) (arr : list A) : M St B :=
  match arr with
  | [] => ret acc
  | x :: arr' =>
      do! acc' := f acc x in
      foldM f acc' arr'
  end.

(** [arr.map(f)] for a method [f]. *)
Fixpoint mapM {St A B} (f : A -> M St B) (arr : list A) : M St (list B) :=
  match arr with
  | [] => ret []
  | x :: arr' =>
      do! y := f x in
      do! ys := mapM f arr' in
      ret (y :: ys)
  end.

(** ** The class [EntityCodec] *)

Record PropMeta : Type := mkPropMeta {
  index : Z;
  type : string
}.

(** A property of a class: [p.name.toString()] and
    [p.prop_type.type.toString()]. *)
Record Property : Type := mkProperty {
  name : string;
  prop_type : string
}.

(** The schema of an entity class ([Class] in the source). *)
Record Class_ : Type := mkClass {
  properties : list Property
}.

(** [ClassPropertyValue]. The encoder builds it around a [PropertyValue];
    the decoder reads its [v.value.value], the codec object inside the
    enum, which is what [value] holds for a decoded entity. *)
Record ClassPropertyValue (V : Type) : Type := mkClassPropertyValue {
  in_class_index : Z;
  value : V
}.
Arguments mkClassPropertyValue {V} in_class_index value.
Arguments in_class_index {V} c.
Arguments value {V} c.

Record Entity : Type := mkEntity {
  id : Z;
  class_id : Z;
  in_class_schema_indexes : list Z;
  entity_values : list (ClassPropertyValue CodecRef)
}.

(** The private fields of an instance. *)
Record EntityCodec : Type := mkEntityCodec {
  propNameToMetaMap : gmap string PropMeta;
  propIndexToNameMap : gmap Z string
}.

(** The field initialisers: both maps are [new Map()]. *)
Definition EntityCodec_fields : EntityCodec := mkEntityCodec ∅ ∅.

Definition propNameToMetaMap_set (propName : string) (propMeta : PropMeta) : M EntityCodec unit :=
  modify (fun c => mkEntityCodec (<[propName := propMeta]> (propNameToMetaMap c)) (propIndexToNameMap c)).

Definition propIndexToNameMap_set (idx : Z) (propName : string) : M EntityCodec unit :=
  modify (fun c => mkEntityCodec (propNameToMetaMap c) (<[idx := propName]> (propIndexToNameMap c))).

Definition propNameToMetaMap_get (propName : string) : M EntityCodec (option PropMeta) :=
  gets (fun c => propNameToMetaMap c !! propName).

Definition propIndexToNameMap_get (idx : Z) : M EntityCodec (option string) :=
  gets (fun c => propIndexToNameMap c !! idx).

(** A plain object, keyed by field name. *)
Abbreviation PlainEntity := (gmap string JsVal).

(** The object passed to [toSubstrateUpdate]: its own properties in the
    order [Object.keys] enumerates them. *)
Abbreviation UpdatedProps := (list (string * JsVal)).

Definition Object_keys (o : UpdatedProps) : list string := o.*1.

(** [o[key]]: [undefined] when [o] has no such property. *)
Fixpoint Object_get (o : UpdatedProps) (key : string) : JsVal :=
  match o with
  | [] => JUndefined
  | (k, v) :: o' => if String.eqb k key then v else Object_get o' key
  end.

(** Truthiness of a string: every string but the empty one. The other
    value of [propName: string | undefined], [undefined], is falsy. *)
Definition truthy (s : string) : bool := negb (String.eqb s "").

Section EntityCodec.

(** [camelCase] of lodash. *)
Variable camelCase : string -> string.

(** The callback of the constructor, for the property [p] at [index]. *)
Definition constructor_callback (p : Property) (index : nat) : M EntityCodec unit :=
  let propName := propNameToJsFieldStyle camelCase (name p) in
  let propMeta := mkPropMeta (Z.of_nat index) (prop_type p) in
  do! _ := propNameToMetaMap_set propName propMeta in
  propIndexToNameMap_set (Z.of_nat index) propName.

Definition constructor (entityClass : Class_) : M EntityCodec unit :=
  forEach_from 0 (properties entityClass) constructor_callback.

(** [new EntityCodec(entityClass)]: the instance once the constructor
    has returned. *)
Definition new_EntityCodec (entityClass : Class_) : EntityCodec :=
  this (snd (constructor entityClass (mkWorld EntityCodec_fields []))).

End EntityCodec.

Definition inClassIndexOfProp (propName : string) : M EntityCodec (option Z) :=
  do! meta := propNameToMetaMap_get propName in
  ret (index <$> meta).

(** The callback of [forEach] in [toPlainObject], for the value [v], with
    the object [res] under construction. *)
Definition toPlainObject_callback (res : PlainEntity) (v : ClassPropertyValue CodecRef)
    : M EntityCodec PlainEntity :=
  do! propIdx := lift (BN_toNumber (in_class_index v)) in
  do! propName := propIndexToNameMap_get propIdx in
  match propName with
  | Some propName =>
      if truthy propName
      then
        do! plain := lift (substrateToPlain (value v)) in
        ret (<[propName := plain]> res)
      else ret res
  | None => ret res
  end.

Definition toPlainObject (entity : Entity) : M EntityCodec PlainEntity :=
  do! classId := lift (BN_toNumber (class_id entity)) in
  do! inClassSchemaIndexes := lift (omap BN_toNumber (in_class_schema_indexes entity)) in
  do! id := lift (BN_toNumber (id entity)) in
  let res : PlainEntity :=
    <["id" := JNum id]>
      (<["inClassSchemaIndexes" := JArr (JNum <$> inClassSchemaIndexes)]>
         (<["classId" := JNum classId]> ∅)) in
  foldM toPlainObject_callback res (entity_values entity).

(** The filter of [toPlainObjects] keeps [e] when [typeof e !== undefined],
    which holds of every [e]. *)
Definition toPlainObjects (entities : list Entity) : M EntityCodec (list PlainEntity) :=
  do! es := mapM toPlainObject entities in
  ret (filter (fun _ => True) es).

(** The callback of [toSubstrateUpdate], for the key [propName], with the
    vector [res] under construction. *)
Definition toSubstrateUpdate_callback (updatedProps : UpdatedProps)
    (res : list (ClassPropertyValue PropertyValue)) (propName : string)
    : M EntityCodec (list (ClassPropertyValue PropertyValue)) :=
  do! meta := propNameToMetaMap_get propName in
  match meta with
  | Some meta =>
      let propType := type meta in
      let plainValue := Object_get updatedProps propName in
      do! codecValue :=
        try_catch
          (do! cv := lift (plainToSubstrate propType plainValue) in ret (Some cv))
          (fun err =>
             do! shown := lift (ToString plainValue) in
             do! _ := console_error
               ("Failed to convert plain value '" +:+ shown
                  +:+ "' to Substrate codec. Error:") err in
             ret None) in
      match codecValue with
      | Some codecValue =>
          ret ((res : list _) ++ [mkClassPropertyValue (index meta) codecValue])%list
      | None => ret res
      end
  | None => ret res
  end.

Definition toSubstrateUpdate (updatedProps : UpdatedProps)
    : M EntityCodec (list (ClassPropertyValue PropertyValue)) :=
  foldM (toSubstrateUpdate_callback updatedProps) [] (Object_keys updatedProps).

(** ** Registration of the types of the permissions module *)

Section Registration.

(** The global type registry and [getTypeRegistry().register(types)],
    which are the library's; [types] is the list of names registered. *)
Variable TypeRegistry : Type.
Variable getTypeRegistry_register : list string -> M TypeRegistry unit.

Definition registerVersionedStorePermissionsTypes : M TypeRegistry unit :=
  try_catch
    (getTypeRegistry_register
       ["Credential"; "CredentialSet"; "PropertyIndex"; "EntityPermissions";
        "ReferenceConstraint"; "ClassPermissionsType"; "Operation"])
    (fun err =>
       console_error "Failed to register custom types of versioned store module" err).

End Registration.

(** ** The raw representation of a typed value *)

(** Modelled from the spec: the numeric strings that the integer variants
    accept are read in decimal notation, with a minus sign for a negative
    integer. *)
Definition digit_of_ascii (c : ascii) : option Z :=
  let n := Z.of_nat (nat_of_ascii c) in
  if ((48 <=? n)%Z && (n <=? 57)%Z)%bool then Some (n - 48)%Z else None.

Fixpoint parse_digits (s : string) (acc : Z) : option Z :=
  match s with
  | EmptyString => Some acc
  | String c s' =>
      match digit_of_ascii c with
      | Some d => parse_digits s' (10 * acc + d)%Z
      | None => None
      end
  end.

Definition parse_decimal (s : string) : option Z :=
  match s with
  | EmptyString => None
  | String "-" EmptyString => None
  | String "-" s' => Z.opp <$> parse_digits s' 0
  | _ => parse_digits s 0
  end.

(** Modelled from the spec: the integer that a plain value denotes, when
    it is a number or a numeric string. *)
Definition numeric (v : JsVal) : option Z :=
  match v with
  | JNum n => Some n
  | JStr s => parse_decimal s
  | _ => None
  end.

(** Modelled from the spec: the codec object of an integer variant, of a
    text variant, and of a vector variant whose elements are read by
    [elem]. *)
Definition numericCodec (v : JsVal) : option Codec := CBN <$> numeric v.

Definition textCodec (v : JsVal) : option Codec :=
  match v with
  | JStr s => Some (CText s)
  | _ => None
  end.

Fixpoint vecCodec (elem : JsVal -> option Codec) (xs : list JsVal) : option (list Codec) :=
  match xs with
  | [] => Some []
  | x :: xs' =>
      match elem x, vecCodec elem xs' with
      | Some c, Some cs => Some (c :: cs)
      | _, _ => None
      end
  end.

Definition arrayCodec (elem : JsVal -> option Codec) (v : JsVal) : option Codec :=
  match v with
  | JArr xs => CVec <$> vecCodec elem xs
  | _ => None
  end.

(** Modelled from the spec: the classes of [./PropertyValue], which are
    not among the sources. Each variant wraps a value of the plain type
    of its name: the integer variants an integer given as a number or as a
    numeric string (of any size, the range is not validated), [Text] and
    [Internal] a string (for [Internal] the identifier of the entity
    referred to), [Bool] a boolean, the vector variants an array of these,
    and [None] the empty value, whose string form is empty. [encodeAsRaw]
    gives the codec object that the decoder is handed for such a value;
    there is none when the argument of the constructor is of another
    shape. *)
Definition encodeAsRaw (typeEnum : PV.PropertyValueEnum) : option Codec :=
  match typeEnum with
  | PV.None => Some (COther "")
  | PV.Bool b => Some (CBool b)
  | PV.Uint16 v | PV.Uint32 v | PV.Uint64 v
  | PV.Int16 v | PV.Int32 v | PV.Int64 v => numericCodec v
  | PV.Text v | PV.Internal v => textCodec v
  | PV.BoolVec bs => Some (CVec (CBool <$> bs))
  | PV.Uint16Vec v | PV.Uint32Vec v | PV.Uint64Vec v
  | PV.Int16Vec v | PV.Int32Vec v | PV.Int64Vec v => arrayCodec numericCodec v
  | PV.TextVec v | PV.InternalVec v => arrayCodec textCodec v
  end.

(** ** Round trip of a scalar value *)

Definition is_string (v : JsVal) : bool :=
  match v with
  | JStr _ => true
  | _ => false
  end.

Definition is_boolean (v : JsVal) : bool :=
  match v with
  | JBool _ => true
  | _ => false
  end.

Definition is_absent (v : JsVal) : bool :=
  match v with
  | JNull | JUndefined => true
  | _ => false
  end.

(** An integer of the half-open interval from [lo] to [hi]. *)
Definition integer_between (lo hi : Z) (v : JsVal) : bool :=
  match numeric v with
  | Some n => ((lo <=? n)%Z && (n <? hi)%Z)%bool
  | None => false
  end.

(** The plain values of a primitive type: the absent value for [None], a
    boolean for [Bool], an integer of the range of the type for the
    integer types, as a number or in decimal notation, and a string for
    [Text] and [Internal]. *)
Definition representative (T : string) (v : JsVal) : bool :=
  switch T
    [ ("None", is_absent v);
      ("Bool", is_boolean v);
      ("Uint16", integer_between 0 (2 ^ 16) v);
      ("Uint32", integer_between 0 (2 ^ 32) v);
      ("Uint64", integer_between 0 (2 ^ 64) v);
      ("Int16", integer_between (- 2 ^ 15) (2 ^ 15) v);
      ("Int32", integer_between (- 2 ^ 31) (2 ^ 31) v);
      ("Int64", integer_between (- 2 ^ 63) (2 ^ 63) v);
      ("Text", is_string v);
      ("Internal", is_string v) ]
    false.

Definition numeric_equal (w v : JsVal) : bool :=
  match numeric w, numeric v with
  | Some a, Some b => (a =? b)%Z
  | _, _ => false
  end.

Definition string_equal (w v : JsVal) : bool :=
  match w, v with
  | JStr a, JStr b => String.eqb a b
  | _, _ => false
  end.

Definition boolean_equal (w v : JsVal) : bool :=
  match w, v with
  | JBool a, JBool b => Bool.eqb a b
  | _, _ => false
  end.

Definition absent_equal (w v : JsVal) : bool := (is_absent w && is_absent v)%bool.

(** The equality of each primitive type. *)
Definition equalUnder (T : string) (w v : JsVal) : bool :=
  switch T
    [ ("None", absent_equal w v);
      ("Bool", boolean_equal w v);
      ("Uint16", numeric_equal w v);
      ("Uint32", numeric_equal w v);
      ("Uint64", numeric_equal w v);
      ("Int16", numeric_equal w v);
      ("Int32", numeric_equal w v);
      ("Int64", numeric_equal w v);
      ("Text", string_equal w v);
      ("Internal", string_equal w v) ]
    false.

(** Encode [v] with the type name [T], take the raw representation of the
    typed value, decode it, and compare the result with [v]. *)
Definition roundTrips (T : string) (v : JsVal) : bool :=
  match plainToSubstrate T v with
  | Return codecValue =>
      match encodeAsRaw (pv_value codecValue) with
      | Some raw =>
          match substrateToPlain (obj raw) with
          | Return plain => equalUnder T plain v
          | Throw _ => false
          end
      | None => false
      end
  | Throw _ => false
  end.

(** A value that denotes an integer denotes one below [2 ^ 53] in absolute
    value. *)
Definition within_53_bits (v : JsVal) : bool :=
  match numeric v with
  | Some n => (Z.abs n <? 2 ^ 53)%Z
  | None => true
  end.

(** ** Definitions used to state the properties *)

(** The value [ok(typeEnum)] of a successful call of [plainToSubstrate]. *)
Definition encoded (propType : string) (typeEnum : PV.PropertyValueEnum) : Outcome PropertyValue :=
  Return (mkPropertyValue propType typeEnum).

(** A computation that leaves the fields of the object as they were. *)
Definition read_only {St A} (m : M St A) : Prop :=
  forall w, this (snd (m w)) = this w.

(** The two maps once the properties [ps], of which the first has the
    index [index], have been recorded in [c]. *)
Fixpoint recorded (camelCase : string -> string) (index : nat) (ps : list Property)
    (c : EntityCodec) : EntityCodec :=
  match ps with
  | [] => c
  | p :: ps' =>
      let propName := propNameToJsFieldStyle camelCase (name p) in
      recorded camelCase (S index) ps'
        (mkEntityCodec
           (<[propName := mkPropMeta (Z.of_nat index) (prop_type p)]> (propNameToMetaMap c))
           (<[Z.of_nat index := propName]> (propIndexToNameMap c)))
  end.

(** The canonical field name of a property, and those of a schema in the
    order of its properties. *)
Definition fieldName (camelCase : string -> string) (p : Property) : string :=
  propNameToJsFieldStyle camelCase (name p).

Definition fieldNames (camelCase : string -> string) (entityClass : Class_) : list string :=
  fieldName camelCase <$> properties entityClass.

(** What one field of an update contributes: its entry, when its name is in
    the forward map and its value is encoded. *)
Definition fieldEntries (c : EntityCodec) (updatedProps : UpdatedProps) (propName : string)
    : list (ClassPropertyValue PropertyValue) :=
  match propNameToMetaMap c !! propName with
  | Some meta =>
      match plainToSubstrate (type meta) (Object_get updatedProps propName) with
      | Return codecValue => [mkClassPropertyValue (index meta) codecValue]
      | Throw _ => []
      end
  | None => []
  end.

(** The diagnostic of one field of an update: one line, when its name is in
    the forward map, the encoding of its value throws and the value has a
    string form. *)
Definition fieldDiagnostics (c : EntityCodec) (updatedProps : UpdatedProps) (propName : string)
    : list LogEntry :=
  match propNameToMetaMap c !! propName with
  | Some meta =>
      match plainToSubstrate (type meta) (Object_get updatedProps propName) with
      | Return _ => []
      | Throw err =>
          match ToString (Object_get updatedProps propName) with
          | Return shown =>
              [ConsoleError
                 ("Failed to convert plain value '" +:+ shown
                    +:+ "' to Substrate codec. Error:") err]
          | Throw _ => []
          end
      end
  | None => []
  end.

(** The field of an update can be reported: if its name is in the forward
    map and the encoding of its value throws, the value has a string
    form. *)
Definition reportable (c : EntityCodec) (updatedProps : UpdatedProps) (propName : string)
    : Prop :=
  forall meta err,
    propNameToMetaMap c !! propName = Some meta ->
    plainToSubstrate (type meta) (Object_get updatedProps propName) = Throw err ->
    exists shown, ToString (Object_get updatedProps propName) = Return shown.


(** An entity with the values [vs]. *)
Definition with_values (entity : Entity) (vs : list (ClassPropertyValue CodecRef)) : Entity :=
  mkEntity (id entity) (class_id entity) (in_class_schema_indexes entity) vs.

(** Every integer inside the codec object fits in 53 bits. *)
Fixpoint fits_53_bits (c : Codec) : bool :=
  match c with
  | CBN n => (Z.abs n <? 2 ^ 53)%Z
  | CVec ys => forallb fits_53_bits ys
  | _ => true
  end.

(** A value of a record that [toPlainObject] gets through: its index fits
    in 53 bits and, if the index has a name that is not empty, the value is
    [null] or a codec object whose integers fit in 53 bits. *)
Definition decodable (c : EntityCodec) (v : ClassPropertyValue CodecRef) : Prop :=
  (Z.abs (in_class_index v) <? 2 ^ 53)%Z = true /\
  forall propName,
    propIndexToNameMap c !! in_class_index v = Some propName ->
    truthy propName = true ->
    match value v with
    | undefined => False
    | null => True
    | obj x => fits_53_bits x = true
    end.

(** The identifiers and the schema indexes of the entity fit in 53 bits. *)
Definition metadata_fit (entity : Entity) : Prop :=
  (Z.abs (class_id entity) <? 2 ^ 53)%Z = true /\
  (Z.abs (id entity) <? 2 ^ 53)%Z = true /\
  Forall (fun n => (Z.abs n <? 2 ^ 53)%Z = true) (in_class_schema_indexes entity).

(** An instance of [camelCase] for the examples: the words of a name are
    its runs of letters and digits; the first is lower-cased, the others
    are lower-cased but for their first letter, which is made a capital. On
    a name made of letters and of separators other than the apostrophe,
    whose words are each of one case or capitalised, this is the result of
    lodash. *)
Definition is_alphanumeric (c : ascii) : bool :=
  let n := nat_of_ascii c in
  (((48 <=? n)%nat && (n <=? 57)%nat) || ((65 <=? n)%nat && (n <=? 90)%nat)
   || ((97 <=? n)%nat && (n <=? 122)%nat))%bool.

Definition upper_ascii (c : ascii) : ascii :=
  let n := nat_of_ascii c in
  if ((97 <=? n)%nat && (n <=? 122)%nat)%bool then ascii_of_nat (n - 32) else c.

Definition close_word (word : string) : list string :=
  match word with
  | EmptyString => []
  | _ => [word]
  end.

Fixpoint words_from (s : string) (word : string) : list string :=
  match s with
  | EmptyString => close_word word
  | String c s' =>
      if is_alphanumeric c
      then words_from s' (word +:+ String c EmptyString)
      else (close_word word ++ words_from s' EmptyString)%list
  end.

Definition capitalize (word : string) : string :=
  match word with
  | EmptyString => EmptyString
  | String c word' => String (upper_ascii c) word'
  end.

Fixpoint concat_words (ws : list string) : string :=
  match ws with
  | [] => ""
  | w :: ws' => w +:+ concat_words ws'
  end.

Definition camelCase_words (s : string) : string :=
  match words_from s EmptyString with
  | [] => ""
  | w :: ws => toLowerCase w +:+ concat_words ((fun x => capitalize (toLowerCase x)) <$> ws)
  end.

(** A string without a letter. *)
Definition is_letter (c : ascii) : bool :=
  let n := nat_of_ascii c in
  (((65 <=? n)%nat && (n <=? 90)%nat) || ((97 <=? n)%nat && (n <=? 122)%nat))%bool.

Fixpoint no_letters (s : string) : bool :=
  match s with
  | EmptyString => true
  | String c s' => (negb (is_letter c) && no_letters s')%bool
  end.

(** A computation that leaves the whole state, fields and console, as it
    was. *)
Definition silent {St A} (m : M St A) : Prop :=
  forall w, snd (m w) = w.

(** The three fields that every decoded object has. *)
Definition metadataKeys : list string := ["classId"; "inClassSchemaIndexes"; "id"].

(** * Properties *)

(** ** The [switch] statement *)

Lemma switch_default {A} (s : string) (cases : list (string * A)) (d : A) :
  s ∉ cases.*1 -> switch s cases d = d.
Proof.
  induction cases as [|[label branch] cases IH]; simpl; intros Hs; [reflexivity|].
  apply not_elem_of_cons in Hs as [Hne Hs].
  destruct (String.eqb_spec s label) as [->|_]; [contradiction|auto].
Qed.

Lemma indexOf_ge_0_elem_of (arr : list string) (x : string) :
  indexOf_ge_0 arr x = bool_decide (x ∈ arr).
Proof.
  induction arr as [|y arr IH]; cbn [indexOf_ge_0].
  - symmetry. apply bool_decide_eq_false_2, not_elem_of_nil.
  - destruct (String.eqb_spec y x) as [->|Hne].
    + symmetry. apply bool_decide_eq_true_2. left.
    + rewrite IH. apply bool_decide_ext. rewrite elem_of_cons.
      split; [intros Hx; right; exact Hx | intros [Heq | Hx]; [congruence | exact Hx]].
Qed.

(** ** The encoder on one value *)

Lemma valueAsBool_boolean (b : bool) :
  valueAsBool (JBool b) = Return (b, JBool b).
Proof. reflexivity. Qed.

Lemma valueAsBool_string_or_number (v : JsVal) :
  typeof v = "string" \/ typeof v = "number" ->
  exists v', valueAsBool v =
    Return (bool_decide (toLowerCase (primitive_toString v) ∈ ["true"; "yes"; "1"]), v').
Proof.
  intros Hty. unfold valueAsBool.
  assert ((String.eqb (typeof v) "string" || String.eqb (typeof v) "number")%bool = true) as ->.
  { destruct Hty as [-> | ->]; reflexivity. }
  cbv zeta. rewrite indexOf_ge_0_elem_of.
  case_bool_decide; eauto.
Qed.





(** C2. Evaluation of the encoder with the type name BoolVec on an array
    that is not empty: every call of [valueAsBool] made by [map] examines
    the array itself, not its element, and the first one throws: the error
    of an unsupported representation of a boolean, whose message ends with
    the string form of the whole array, or the exception of the string
    conversion of the array when it has none. The claim says that the
    elements are coerced one by one. *)
Theorem BoolVec_of_nonempty_array_throws (x : JsVal) (xs : list JsVal) :
  plainToSubstrate "BoolVec" (JArr (x :: xs)) =
    (let! shown := ToString (JArr (x :: xs)) in
     Throw (Error ("Unsupported representation of a boolean value: " +:+ shown))) /\
  exists err, plainToSubstrate "BoolVec" (JArr (x :: xs)) = Throw err.
Proof.
  change (plainToSubstrate "BoolVec" (JArr (x :: xs)))
    with (let! (bs, _) :=
            (let! (b, value) :=
               (let! shown := ToString (JArr (x :: xs)) in
                Throw (Error ("Unsupported representation of a boolean value: " +:+ shown))) in
             let! (bs, value) := map_valueAsBool xs value in
             Return (b :: bs, value)) in
          encoded "BoolVec" (PV.BoolVec bs)).
  destruct (ToString (JArr (x :: xs))) as [shown|err]; cbn [obind].
  - split; [reflexivity | eexists; reflexivity].
  - split; [reflexivity | eexists; reflexivity].
Qed.

Example BoolVec_of_true_throws :
  plainToSubstrate "BoolVec" (JArr [JBool true]) =
    Throw (Error "Unsupported representation of a boolean value: true").
Proof. reflexivity. Qed.

Example BoolVec_of_empty_array :
  plainToSubstrate "BoolVec" (JArr []) = encoded "BoolVec" (PV.BoolVec []).
Proof. reflexivity. Qed.

(** The vector types other than BoolVec hand the value over as it is. *)
Lemma other_vectors_pass_through (value : JsVal) :
  plainToSubstrate "Uint16Vec" value = encoded "Uint16Vec" (PV.Uint16Vec value) /\
  plainToSubstrate "Uint32Vec" value = encoded "Uint32Vec" (PV.Uint32Vec value) /\
  plainToSubstrate "Uint64Vec" value = encoded "Uint64Vec" (PV.Uint64Vec value) /\
  plainToSubstrate "Int16Vec" value = encoded "Int16Vec" (PV.Int16Vec value) /\
  plainToSubstrate "Int32Vec" value = encoded "Int32Vec" (PV.Int32Vec value) /\
  plainToSubstrate "Int64Vec" value = encoded "Int64Vec" (PV.Int64Vec value) /\
  plainToSubstrate "TextVec" value = encoded "TextVec" (PV.TextVec value) /\
  plainToSubstrate "InternalVec" value = encoded "InternalVec" (PV.InternalVec value).
Proof. repeat split. Qed.

Lemma unknown_type_name_throws (propType : string) (value : JsVal) :
  propType ∉ propertyTypeNames ->
  plainToSubstrate propType value =
    Throw (Error ("Unknown property type name: " +:+ propType)).
Proof.
  intros Hnot. unfold plainToSubstrate. apply switch_default.
  intros Hin. apply Hnot. exact Hin.
Qed.

(** ** Round trip of scalar values *)

Lemma BN_toNumber_53_bits (n : Z) :
  (Z.abs n <? 2 ^ 53)%Z = true -> BN_toNumber n = Return n.
Proof. intros Hn. unfold BN_toNumber. rewrite Hn. reflexivity. Qed.

(** An integer below [2 ^ 53] in absolute value, given as a number or in
    decimal notation, is decoded to a number equal to it. *)
Lemma integer_round_trip (v : JsVal) (lo hi : Z) :
  integer_between lo hi v = true ->
  within_53_bits v = true ->
  match numericCodec v with
  | Some raw =>
      match substrateToPlain (obj raw) with
      | Return plain => numeric_equal plain v
      | Throw _ => false
      end
  | None => false
  end = true.
Proof.
  unfold integer_between, within_53_bits, numericCodec, numeric_equal.
  destruct (numeric v) as [n|] eqn:Hv; [|discriminate].
  intros _ H53. cbn [fmap option_fmap option_map substrateToPlain substrateToPlain_obj].
  rewrite (BN_toNumber_53_bits n H53). cbn [obind numeric].
  apply Z.eqb_refl.
Qed.

(** The ranges of the types of 16 and of 32 bits lie within 53 bits. *)
Lemma integer_between_53_bits (v : JsVal) (lo hi : Z) :
  (- 2 ^ 53 < lo)%Z -> (hi <= 2 ^ 53)%Z ->
  integer_between lo hi v = true -> within_53_bits v = true.
Proof.
  unfold integer_between, within_53_bits. intros Hlo Hhi.
  destruct (numeric v) as [n|]; [|discriminate].
  intros Hn. apply andb_true_iff in Hn as [Hl Hh].
  apply Z.leb_le in Hl. apply Z.ltb_lt in Hh. apply Z.ltb_lt. lia.
Qed.

(** C1, the claim as stated, is false: 9007199254740993, that is
    [2 ^ 53 + 1], in decimal notation is a value of Uint64 which the
    decoder does not give back; the absent value of None is not given
    back either, the decoder returning a string for it. *)
Lemma round_trip_fails_beyond_53_bits :
  ~ (forall T v, T ∈ primitiveTypeNames ->
       representative T v = true -> roundTrips T v = true).
Proof.
  intros Hall.
  assert (roundTrips "Uint64" (JStr "9007199254740993") = true) as Hrt.
  { apply Hall; [|reflexivity]. do 4 right. left. }
  vm_compute in Hrt. discriminate Hrt.
Qed.

Lemma round_trip_fails_on_None (v : JsVal) : roundTrips "None" v = false.
Proof. destruct v; reflexivity. Qed.

(** C1, amended. For every primitive type name but None and every plain
    value of the type, which for Uint64 and Int64 is below [2 ^ 53] in
    absolute value, decoding the raw form of the encoded value gives a
    value equal to it: numerically for the integer types, as the same
    string for Text and Internal, as the same boolean for Bool. *)
Theorem scalar_round_trip (T : string) (v : JsVal) :
  T ∈ primitiveTypeNames ->
  T <> "None" ->
  representative T v = true ->
  (T ∈ ["Uint64"; "Int64"] -> within_53_bits v = true) ->
  roundTrips T v = true.
Proof.
  intros HT HNone Hrep H53.
  unfold primitiveTypeNames in HT.
  repeat (apply elem_of_cons in HT as [-> | HT]); try contradiction.
  - (* Bool *)
    destruct v; try discriminate Hrep. destruct b; reflexivity.
  - (* Uint16 *)
    apply (integer_round_trip v _ _ Hrep).
    apply (integer_between_53_bits v 0 (2 ^ 16)); [lia | lia | exact Hrep].
  - (* Uint32 *)
    apply (integer_round_trip v _ _ Hrep).
    apply (integer_between_53_bits v 0 (2 ^ 32)); [lia | lia | exact Hrep].
  - (* Uint64 *)
    apply (integer_round_trip v _ _ Hrep). apply H53. left.
  - (* Int16 *)
    apply (integer_round_trip v _ _ Hrep).
    apply (integer_between_53_bits v (- 2 ^ 15) (2 ^ 15)); [lia | lia | exact Hrep].
  - (* Int32 *)
    apply (integer_round_trip v _ _ Hrep).
    apply (integer_between_53_bits v (- 2 ^ 31) (2 ^ 31)); [lia | lia | exact Hrep].
  - (* Int64 *)
    apply (integer_round_trip v _ _ Hrep). apply H53. right. left.
  - (* Text *)
    destruct v; try discriminate Hrep. apply String.eqb_refl.
  - (* Internal *)
    destruct v; try discriminate Hrep. apply String.eqb_refl.
  - apply elem_of_nil in HT. contradiction.
Qed.

Lemma scalar_round_trip_witness :
  roundTrips "Uint64" (JStr "9007199254740991") = true /\
  roundTrips "Int16" (JNum (-12)) = true /\
  roundTrips "Internal" (JStr "42") = true.
Proof.
  split; [|split].
  - apply (scalar_round_trip "Uint64" (JStr "9007199254740991"));
      [do 4 right; left | discriminate | reflexivity | reflexivity].
  - apply (scalar_round_trip "Int16" (JNum (-12)));
      [do 5 right; left | discriminate | reflexivity | reflexivity].
  - apply (scalar_round_trip "Internal" (JStr "42"));
      [do 9 right; left | discriminate | reflexivity | reflexivity].
Defined.

(** ** Computations of methods *)

Lemma world_eta {St} (w : World St) : mkWorld (this w) (console w) = w.
Proof. destruct w; reflexivity. Qed.

Lemma read_only_ret {St A} (a : A) : read_only (@ret St A a).
Proof. intros w. reflexivity. Qed.

Lemma read_only_lift {St A} (o : Outcome A) : read_only (@lift St A o).
Proof. intros w. reflexivity. Qed.

Lemma read_only_gets {St A} (f : St -> A) : read_only (gets f).
Proof. intros w. reflexivity. Qed.

Lemma read_only_console_error {St} (message : string) (err : JsError) :
  read_only (@console_error St message err).
Proof. intros w. reflexivity. Qed.

Lemma read_only_bind {St A B} (m : M St A) (k : A -> M St B) :
  read_only m -> (forall a, read_only (k a)) -> read_only (bind m k).
Proof.
  intros Hm Hk w. unfold bind. specialize (Hm w).
  destruct (m w) as [[a|e] w']; simpl in *.
  - rewrite Hk. exact Hm.
  - exact Hm.
Qed.

Lemma read_only_try_catch {St A} (body : M St A) (handler : JsError -> M St A) :
  read_only body -> (forall err, read_only (handler err)) ->
  read_only (try_catch body handler).
Proof.
  intros Hb Hh w. unfold try_catch. specialize (Hb w).
  destruct (body w) as [[a|e] w']; simpl in *.
  - exact Hb.
  - rewrite Hh. exact Hb.
Qed.

Lemma read_only_foldM {St A B} (f : B -> A -> M St B) (arr : list A) :
  (forall acc x, read_only (f acc x)) -> forall acc, read_only (foldM f acc arr).
Proof.
  intros Hf. induction arr as [|x arr IH]; intros acc; simpl.
  - apply read_only_ret.
  - apply read_only_bind; [apply Hf | exact IH].
Qed.

Lemma read_only_mapM {St A B} (f : A -> M St B) (arr : list A) :
  (forall x, read_only (f x)) -> read_only (mapM f arr).
Proof.
  intros Hf. induction arr as [|x arr IH]; simpl.
  - apply read_only_ret.
  - apply read_only_bind; [apply Hf|]. intros y.
    apply read_only_bind; [exact IH|]. intros ys. apply read_only_ret.
Qed.

Create HintDb read_only.
#[local] Hint Resolve read_only_ret read_only_lift read_only_gets
  read_only_console_error read_only_bind read_only_try_catch
  read_only_foldM read_only_mapM : read_only.

Lemma foldM_app {St A B} (f : B -> A -> M St B) (l1 l2 : list A) (acc : B) (w : World St) :
  foldM f acc (l1 ++ l2) w = bind (foldM f acc l1) (fun acc' => foldM f acc' l2) w.
Proof.
  revert acc w. induction l1 as [|x l1 IH]; intros acc w; simpl.
  - reflexivity.
  - unfold bind in *. destruct (f acc x w) as [[acc'|e] w']; [|reflexivity].
    apply IH.
Qed.

(** ** The maps are only read once the constructor has returned *)

Lemma inClassIndexOfProp_read_only (propName : string) :
  read_only (inClassIndexOfProp propName).
Proof. unfold inClassIndexOfProp, propNameToMetaMap_get. auto with read_only. Qed.

Lemma toPlainObject_callback_read_only res v :
  read_only (toPlainObject_callback res v).
Proof.
  unfold toPlainObject_callback, propIndexToNameMap_get.
  apply read_only_bind; [auto with read_only|]. intros propIdx.
  apply read_only_bind; [auto with read_only|]. intros [propName|]; [|auto with read_only].
  destruct (truthy propName); auto with read_only.
Qed.

Lemma toPlainObject_read_only (entity : Entity) : read_only (toPlainObject entity).
Proof.
  unfold toPlainObject.
  repeat (apply read_only_bind; [auto with read_only|]; intros ?).
  apply read_only_foldM. apply toPlainObject_callback_read_only.
Qed.

Lemma toPlainObjects_read_only (entities : list Entity) :
  read_only (toPlainObjects entities).
Proof.
  unfold toPlainObjects. apply read_only_bind; [|auto with read_only].
  apply read_only_mapM. apply toPlainObject_read_only.
Qed.

Lemma toSubstrateUpdate_callback_read_only updatedProps res propName :
  read_only (toSubstrateUpdate_callback updatedProps res propName).
Proof.
  unfold toSubstrateUpdate_callback, propNameToMetaMap_get.
  apply read_only_bind; [auto with read_only|]. intros [meta|]; [|auto with read_only].
  cbv zeta. apply read_only_bind.
  - apply read_only_try_catch; [auto with read_only|].
    intros err. auto with read_only.
  - intros [codecValue|]; auto with read_only.
Qed.

Lemma toSubstrateUpdate_read_only (updatedProps : UpdatedProps) :
  read_only (toSubstrateUpdate updatedProps).
Proof.
  unfold toSubstrateUpdate. apply read_only_foldM.
  apply toSubstrateUpdate_callback_read_only.
Qed.

(** C8. Whatever the instance and the console, each of the methods
    inClassIndexOfProp, toPlainObject, toPlainObjects and toSubstrateUpdate
    ends, by a return or by an exception, in a state whose propNameToMetaMap
    and propIndexToNameMap are those it was called with. *)
Theorem maps_unchanged_after_construction (w : World EntityCodec) :
  (forall propName, this (snd (inClassIndexOfProp propName w)) = this w) /\
  (forall entity, this (snd (toPlainObject entity w)) = this w) /\
  (forall entities, this (snd (toPlainObjects entities w)) = this w) /\
  (forall updatedProps, this (snd (toSubstrateUpdate updatedProps w)) = this w).
Proof.
  split; [|split; [|split]].
  - intros propName. apply inClassIndexOfProp_read_only.
  - intros entity. apply toPlainObject_read_only.
  - intros entities. apply toPlainObjects_read_only.
  - intros updatedProps. apply toSubstrateUpdate_read_only.
Qed.

(** The constructor, in contrast, writes to both maps. *)
Example constructor_writes :
  this (snd (constructor camelCase_words (mkClass [mkProperty "Full Name" "Text"])
               (mkWorld EntityCodec_fields [])))
  = mkEntityCodec {["fullName" := mkPropMeta 0 "Text"]} {[0%Z := "fullName"]}.
Proof. reflexivity. Qed.

(** ** Registration *)

(** C9. registerVersionedStorePermissionsTypes returns whatever the
    registration of the types does: when the registration returns, in the
    state it reached; when it throws, in the state it reached with one line
    more on the console, which holds the error. *)
Theorem registration_never_throws (TypeRegistry : Type)
    (getTypeRegistry_register : list string -> M TypeRegistry unit)
    (w : World TypeRegistry) :
  let types := ["Credential"; "CredentialSet"; "PropertyIndex"; "EntityPermissions";
                "ReferenceConstraint"; "ClassPermissionsType"; "Operation"] in
  exists w',
    registerVersionedStorePermissionsTypes TypeRegistry getTypeRegistry_register w
      = (Return tt, w') /\
    match getTypeRegistry_register types w with
    | (Return _, w1) => w' = w1
    | (Throw err, w1) =>
        w' = mkWorld (this w1)
               (console w1 ++
                  [ConsoleError "Failed to register custom types of versioned store module" err])
    end.
Proof.
  intros types. unfold registerVersionedStorePermissionsTypes, try_catch. fold types.
  destruct (getTypeRegistry_register types w) as [[[]|err] w1].
  - exists w1. split; reflexivity.
  - eexists. split; reflexivity.
Qed.

(** ** Encoding of an update *)

Lemma toSubstrateUpdate_callback_run updatedProps res propName (w : World EntityCodec) :
  reportable (this w) updatedProps propName ->
  toSubstrateUpdate_callback updatedProps res propName w =
    (Return (res ++ fieldEntries (this w) updatedProps propName)%list,
     mkWorld (this w) (console w ++ fieldDiagnostics (this w) updatedProps propName)%list).
Proof.
  intros Hreportable.
  unfold toSubstrateUpdate_callback, fieldEntries, fieldDiagnostics,
    propNameToMetaMap_get, gets, bind, try_catch, lift, console_error, ret.
  cbn [this console]. unfold reportable in Hreportable.
  destruct (propNameToMetaMap (this w) !! propName) as [meta|].
  - specialize (Hreportable meta).
    destruct (plainToSubstrate (type meta) (Object_get updatedProps propName))
      as [codecValue|err]; cbn [this console].
    + rewrite app_nil_r, world_eta. reflexivity.
    + destruct (Hreportable err eq_refl eq_refl) as [shown ->].
      cbn [this console]. rewrite app_nil_r. reflexivity.
  - rewrite !app_nil_r, world_eta. reflexivity.
Qed.

(** A call of the callback that returns was for a field that can be
    reported. *)
Lemma toSubstrateUpdate_callback_Return updatedProps res propName acc
    (w w' : World EntityCodec) :
  toSubstrateUpdate_callback updatedProps res propName w = (Return acc, w') ->
  reportable (this w) updatedProps propName.
Proof.
  unfold toSubstrateUpdate_callback, reportable,
    propNameToMetaMap_get, gets, bind, try_catch, lift, console_error, ret.
  cbn [this console]. intros Hrun meta err Hmeta Herr.
  rewrite Hmeta, Herr in Hrun.
  destruct (ToString (Object_get updatedProps propName)) as [shown|e];
    [eexists; reflexivity | discriminate Hrun].
Qed.

Lemma toSubstrateUpdate_loop updatedProps (keys : list string) res (w : World EntityCodec) :
  (forall propName, propName ∈ keys -> reportable (this w) updatedProps propName) ->
  foldM (toSubstrateUpdate_callback updatedProps) res keys w =
    (Return (res ++ flat_map (fieldEntries (this w) updatedProps) keys)%list,
     mkWorld (this w)
       (console w ++ flat_map (fieldDiagnostics (this w) updatedProps) keys)%list).
Proof.
  revert res w. induction keys as [|k keys IH]; intros res w Hkeys; cbn [foldM flat_map].
  - rewrite !app_nil_r, world_eta. reflexivity.
  - unfold bind. rewrite toSubstrateUpdate_callback_run by (apply Hkeys; left).
    rewrite IH by (intros propName Hin; apply Hkeys; right; exact Hin).
    cbn [this console]. rewrite <- !app_assoc. reflexivity.
Qed.

Lemma toSubstrateUpdate_loop_Return updatedProps (keys : list string) res r
    (w w' : World EntityCodec) :
  foldM (toSubstrateUpdate_callback updatedProps) res keys w = (Return r, w') ->
  forall propName, propName ∈ keys -> reportable (this w) updatedProps propName.
Proof.
  revert res w. induction keys as [|k keys IH]; intros res w Hrun propName Hin.
  - apply elem_of_nil in Hin. contradiction.
  - cbn [foldM] in Hrun. unfold bind at 1 in Hrun.
    destruct (toSubstrateUpdate_callback updatedProps res k w) as [[acc|e] w1] eqn:Hcb;
      [|discriminate Hrun].
    pose proof (toSubstrateUpdate_callback_Return _ _ _ _ _ _ Hcb) as Hk.
    rewrite (toSubstrateUpdate_callback_run _ _ _ _ Hk) in Hcb.
    injection Hcb as _ <-.
    apply elem_of_cons in Hin as [-> | Hin]; [exact Hk|].
    apply (IH _ _ Hrun propName Hin).
Qed.




(** ** The maps built by the constructor *)

Section Construction.

Variable camelCase : string -> string.

Lemma constructor_loop (ps : list Property) (start : nat) (c : EntityCodec)
    (con : list LogEntry) :
  forEach_from start ps (constructor_callback camelCase) (mkWorld c con) =
    (Return tt, mkWorld (recorded camelCase start ps c) con).
Proof.
  revert start c. induction ps as [|p ps IH]; intros start c; [reflexivity|].
  cbn [forEach_from recorded]. unfold bind at 1.
  unfold constructor_callback at 1. unfold bind, propNameToMetaMap_set,
    propIndexToNameMap_set, modify. cbn [this console propNameToMetaMap propIndexToNameMap].
  apply IH.
Qed.

Lemma new_EntityCodec_recorded (entityClass : Class_) :
  new_EntityCodec camelCase entityClass =
    recorded camelCase 0 (properties entityClass) EntityCodec_fields.
Proof.
  unfold new_EntityCodec, constructor. rewrite constructor_loop. reflexivity.
Qed.

Lemma recorded_index_below (ps : list Property) (start : nat) (c : EntityCodec) (z : Z) :
  (z < Z.of_nat start)%Z ->
  propIndexToNameMap (recorded camelCase start ps c) !! z = propIndexToNameMap c !! z.
Proof.
  revert start c. induction ps as [|p ps IH]; intros start c Hz; [reflexivity|].
  cbn [recorded]. rewrite IH by lia. cbn [propIndexToNameMap].
  apply lookup_insert_ne. lia.
Qed.

Lemma recorded_index_above (ps : list Property) (start : nat) (c : EntityCodec) (z : Z) :
  (Z.of_nat (start + length ps) <= z)%Z ->
  propIndexToNameMap (recorded camelCase start ps c) !! z = propIndexToNameMap c !! z.
Proof.
  revert start c. induction ps as [|p ps IH]; intros start c Hz; [reflexivity|].
  cbn [recorded]. cbn [length] in Hz. rewrite IH by lia. cbn [propIndexToNameMap].
  apply lookup_insert_ne. lia.
Qed.

Lemma recorded_index_lookup (ps : list Property) (start : nat) (c : EntityCodec)
    (j : nat) (p : Property) :
  ps !! j = Some p ->
  propIndexToNameMap (recorded camelCase start ps c) !! Z.of_nat (start + j) =
    Some (fieldName camelCase p).
Proof.
  revert start c j. induction ps as [|q ps IH]; intros start c j Hj; [discriminate|].
  cbn [recorded]. destruct j as [|j]; cbn in Hj.
  - injection Hj as ->. rewrite recorded_index_below by lia.
    cbn [propIndexToNameMap]. replace (start + 0)%nat with start by lia.
    apply lookup_insert_eq.
  - replace (start + S j)%nat with (S start + j)%nat by lia. apply IH. exact Hj.
Qed.

Lemma recorded_name_other (ps : list Property) (start : nat) (c : EntityCodec)
    (propName : string) :
  propName ∉ fieldName camelCase <$> ps ->
  propNameToMetaMap (recorded camelCase start ps c) !! propName =
    propNameToMetaMap c !! propName.
Proof.
  revert start c. induction ps as [|p ps IH]; intros start c Hnot; [reflexivity|].
  cbn [recorded]. rewrite fmap_cons in Hnot.
  apply not_elem_of_cons in Hnot as [Hne Hnot].
  rewrite IH by exact Hnot. cbn [propNameToMetaMap].
  apply lookup_insert_ne. intros Heq. apply Hne. symmetry. exact Heq.
Qed.

Lemma recorded_name_lookup (ps : list Property) (start : nat) (c : EntityCodec)
    (j : nat) (p : Property) :
  NoDup (fieldName camelCase <$> ps) ->
  ps !! j = Some p ->
  propNameToMetaMap (recorded camelCase start ps c) !! fieldName camelCase p =
    Some (mkPropMeta (Z.of_nat (start + j)) (prop_type p)).
Proof.
  revert start c j. induction ps as [|q ps IH]; intros start c j Hnd Hj; [discriminate|].
  rewrite fmap_cons in Hnd. apply NoDup_cons in Hnd as [Hq Hnd].
  cbn [recorded]. destruct j as [|j]; cbn in Hj.
  - injection Hj as ->. rewrite recorded_name_other by exact Hq.
    cbn [propNameToMetaMap]. replace (start + 0)%nat with start by lia.
    apply lookup_insert_eq.
  - replace (start + S j)%nat with (S start + j)%nat by lia.
    apply IH; assumption.
Qed.

(** C7. For a schema whose canonical field names are pairwise distinct,
    inClassIndexOfProp on the instance built from it returns, for the
    canonical name of the property at position i, the index i; over the
    N names of the schema these are the integers from 0 to N-1 in order;
    for any other name it returns undefined. *)
Theorem index_stability_under_construction (entityClass : Class_) (con : list LogEntry) :
  NoDup (fieldNames camelCase entityClass) ->
  let w := mkWorld (new_EntityCodec camelCase entityClass) con in
  (forall i p, properties entityClass !! i = Some p ->
     inClassIndexOfProp (propNameToJsFieldStyle camelCase (name p)) w =
       (Return (Some (Z.of_nat i)), w)) /\
  (fun propName => fst (inClassIndexOfProp propName w)) <$> fieldNames camelCase entityClass =
    (fun i => Return (Some (Z.of_nat i))) <$> seq 0 (length (properties entityClass)) /\
  (forall propName, propName ∉ fieldNames camelCase entityClass ->
     inClassIndexOfProp propName w = (Return None, w)).
Proof.
  intros Hnd w.
  assert (forall i p, properties entityClass !! i = Some p ->
            inClassIndexOfProp (propNameToJsFieldStyle camelCase (name p)) w =
              (Return (Some (Z.of_nat i)), w)) as Hpos.
  { intros i p Hp.
    unfold inClassIndexOfProp, propNameToMetaMap_get, gets, bind, ret, w.
    cbn [this]. rewrite new_EntityCodec_recorded.
    rewrite (recorded_name_lookup _ 0 _ i p Hnd Hp). reflexivity. }
  split; [exact Hpos|split].
  - apply list_eq. intros i. unfold fieldNames.
    rewrite !list_lookup_fmap.
    destruct (properties entityClass !! i) as [p|] eqn:Hp;
      cbn [fmap option_fmap option_map].
    + unfold fieldName. rewrite (Hpos i p Hp).
      rewrite (lookup_seq_lt 0 _ i) by (apply lookup_lt_Some in Hp; exact Hp).
      reflexivity.
    + rewrite lookup_seq_ge by (apply lookup_ge_None in Hp; exact Hp).
      reflexivity.
  - intros propName Hnot.
    unfold inClassIndexOfProp, propNameToMetaMap_get, gets, bind, ret, w.
    cbn [this]. rewrite new_EntityCodec_recorded.
    rewrite recorded_name_other by exact Hnot. reflexivity.
Qed.

End Construction.

Lemma index_stability_witness :
  let entityClass :=
    mkClass [mkProperty "Title" "Text"; mkProperty "Full Name" "Text";
             mkProperty "is public" "Bool"] in
  let w := mkWorld (new_EntityCodec camelCase_words entityClass) [] in
  fieldNames camelCase_words entityClass = ["title"; "fullName"; "isPublic"] /\
  (fun propName => fst (inClassIndexOfProp propName w)) <$> ["title"; "fullName"; "isPublic"] =
    [Return (Some 0%Z); Return (Some 1%Z); Return (Some 2%Z)] /\
  inClassIndexOfProp "Full Name" w = (Return None, w).
Proof.
  intros entityClass w.
  assert (NoDup (fieldNames camelCase_words entityClass)) as Hnd.
  { apply (bool_decide_unpack _). vm_compute. exact I. }
  destruct (index_stability_under_construction camelCase_words entityClass [] Hnd)
    as (_ & Hall & Hother).
  split; [reflexivity|split].
  - exact Hall.
  - apply Hother. vm_compute. intros Hin.
    repeat (apply elem_of_cons in Hin as [Heq | Hin]; [discriminate Heq|]).
    apply elem_of_nil in Hin. exact Hin.
Defined.

(** ** Decoding of an entity *)

(** A value whose index has no name, or the empty name, is passed over: the
    object under construction and the state are as before. *)
Lemma toPlainObject_callback_skips res (v : ClassPropertyValue CodecRef)
    (w : World EntityCodec) :
  (Z.abs (in_class_index v) <? 2 ^ 53)%Z = true ->
  propIndexToNameMap (this w) !! in_class_index v = None \/
  propIndexToNameMap (this w) !! in_class_index v = Some "" ->
  toPlainObject_callback res v w = (Return res, w).
Proof.
  intros H53 Hname.
  unfold toPlainObject_callback, bind, lift, propIndexToNameMap_get, gets, ret.
  rewrite (BN_toNumber_53_bits _ H53).
  destruct Hname as [-> | ->]; reflexivity.
Qed.

Lemma foldM_toPlainObject_callback_skips pre v post res (w : World EntityCodec) :
  (Z.abs (in_class_index v) <? 2 ^ 53)%Z = true ->
  propIndexToNameMap (this w) !! in_class_index v = None \/
  propIndexToNameMap (this w) !! in_class_index v = Some "" ->
  foldM toPlainObject_callback res (pre ++ v :: post) w =
    foldM toPlainObject_callback res (pre ++ post) w.
Proof.
  intros H53 Hname. rewrite !foldM_app. unfold bind at 1 2.
  pose proof (read_only_foldM toPlainObject_callback pre
                toPlainObject_callback_read_only res w) as Hthis.
  destruct (foldM toPlainObject_callback res pre w) as [[acc|e] w1];
    [|reflexivity].
  cbn [snd] in Hthis. cbn [foldM]. unfold bind at 1.
  rewrite toPlainObject_callback_skips; [reflexivity | exact H53 |].
  rewrite Hthis. exact Hname.
Qed.

Lemma toPlainObject_skips entity pre v post (w : World EntityCodec) :
  (Z.abs (in_class_index v) <? 2 ^ 53)%Z = true ->
  propIndexToNameMap (this w) !! in_class_index v = None \/
  propIndexToNameMap (this w) !! in_class_index v = Some "" ->
  toPlainObject (with_values entity (pre ++ v :: post)) w =
    toPlainObject (with_values entity (pre ++ post)) w.
Proof.
  intros H53 Hname. unfold toPlainObject, with_values, bind, lift.
  cbn [id class_id in_class_schema_indexes entity_values].
  destruct (BN_toNumber (class_id entity)) as [classId|e]; [|reflexivity].
  destruct (omap BN_toNumber (in_class_schema_indexes entity)) as [indexes|e];
    [|reflexivity].
  destruct (BN_toNumber (id entity)) as [id_|e]; [|reflexivity].
  apply foldM_toPlainObject_callback_skips; assumption.
Qed.

Lemma u16_53_bits (z : Z) :
  (0 <= z < 2 ^ 16)%Z -> (Z.abs z <? 2 ^ 53)%Z = true.
Proof. intros Hz. apply Z.ltb_lt. lia. Qed.

(** A codec object whose integers fit in 53 bits is decoded. *)
Lemma substrateToPlain_obj_returns (x : Codec) :
  fits_53_bits x = true -> exists plain, substrateToPlain_obj x = Return plain.
Proof.
  revert x. fix IH 1. intros [s|n|b|ys|str] Hfit; cbn [substrateToPlain_obj].
  - eexists. reflexivity.
  - cbn [fits_53_bits] in Hfit. rewrite (BN_toNumber_53_bits n Hfit).
    eexists. reflexivity.
  - eexists. reflexivity.
  - cbn [fits_53_bits] in Hfit.
    assert (exists rs,
              (fix map_ys (l : list Codec) : Outcome (list JsVal) :=
                 match l with
                 | [] => Return []
                 | y :: l' =>
                     let! r := substrateToPlain_obj y in
                     let! rs := map_ys l' in
                     Return (r :: rs)
                 end) ys = Return rs) as [rs ->].
    { induction ys as [|y ys IHys].
      - eexists. reflexivity.
      - cbn [forallb] in Hfit. apply andb_true_iff in Hfit as [Hy Hys].
        destruct (IH y Hy) as [r ->]. destruct (IHys Hys) as [rs ->].
        eexists. reflexivity. }
    eexists. reflexivity.
  - eexists. reflexivity.
Qed.

Lemma omap_BN_toNumber_returns (l : list Z) :
  Forall (fun n => (Z.abs n <? 2 ^ 53)%Z = true) l -> omap BN_toNumber l = Return l.
Proof.
  induction 1 as [|n l Hn _ IH]; cbn [omap]; [reflexivity|].
  rewrite (BN_toNumber_53_bits n Hn), IH. reflexivity.
Qed.

Lemma toPlainObject_callback_returns res v (w : World EntityCodec) :
  decodable (this w) v -> exists r, toPlainObject_callback res v w = (Return r, w).
Proof.
  intros [H53 Hvalue].
  unfold toPlainObject_callback, bind, lift, propIndexToNameMap_get, gets, ret.
  rewrite (BN_toNumber_53_bits _ H53).
  destruct (propIndexToNameMap (this w) !! in_class_index v) as [propName|];
    [|eexists; reflexivity].
  destruct (truthy propName) eqn:Htruthy; [|eexists; reflexivity].
  specialize (Hvalue propName eq_refl Htruthy).
  destruct (value v) as [| |x]; [contradiction | eexists; reflexivity |].
  cbn [substrateToPlain].
  destruct (substrateToPlain_obj_returns x Hvalue) as [plain ->].
  eexists. reflexivity.
Qed.

Lemma foldM_toPlainObject_callback_returns vs res (w : World EntityCodec) :
  Forall (decodable (this w)) vs ->
  exists r, foldM toPlainObject_callback res vs w = (Return r, w).
Proof.
  intros Hvs. revert res. induction Hvs as [|v vs Hv _ IH]; intros res.
  - eexists. reflexivity.
  - cbn [foldM]. unfold bind at 1.
    destruct (toPlainObject_callback_returns res v w Hv) as [acc ->]. apply IH.
Qed.

(** The decoder returns, in the state it was called in, on a record whose
    integers fit in 53 bits and which has no [undefined] at an index with a
    name. *)
Lemma toPlainObject_returns (entity : Entity) (w : World EntityCodec) :
  metadata_fit entity ->
  Forall (decodable (this w)) (entity_values entity) ->
  exists r, toPlainObject entity w = (Return r, w).
Proof.
  intros (Hclass & Hid & Hindexes) Hvalues. unfold toPlainObject, bind, lift.
  rewrite (BN_toNumber_53_bits _ Hclass), (omap_BN_toNumber_returns _ Hindexes),
    (BN_toNumber_53_bits _ Hid).
  apply foldM_toPlainObject_callback_returns. exact Hvalues.
Qed.

(** C5. When the index of a value of a raw record, an unsigned integer of
    16 bits, has no entry in the index-to-name map, toPlainObject does on
    the record what it does on the record without that value, so that its
    result has no key for the value and the same other fields; and it
    returns, whatever that value is, when the rest of the record is
    decodable. *)
Theorem unknown_index_dropped (w : World EntityCodec) (entity : Entity)
    (pre post : list (ClassPropertyValue CodecRef)) (v : ClassPropertyValue CodecRef) :
  (0 <= in_class_index v < 2 ^ 16)%Z ->
  propIndexToNameMap (this w) !! in_class_index v = None ->
  toPlainObject (with_values entity (pre ++ v :: post)) w =
    toPlainObject (with_values entity (pre ++ post)) w /\
  (metadata_fit entity -> Forall (decodable (this w)) (pre ++ post) ->
   exists r, toPlainObject (with_values entity (pre ++ v :: post)) w = (Return r, w)).
Proof.
  intros Hu16 Hnone.
  assert (toPlainObject (with_values entity (pre ++ v :: post)) w =
            toPlainObject (with_values entity (pre ++ post)) w) as Hsame.
  { apply toPlainObject_skips.
    - apply u16_53_bits. exact Hu16.
    - left. exact Hnone. }
  split; [exact Hsame|].
  intros Hmeta Hrest. rewrite Hsame.
  apply toPlainObject_returns; [exact Hmeta | exact Hrest].
Qed.

Lemma unknown_index_dropped_witness :
  let codec := mkEntityCodec {["title" := mkPropMeta 0 "Text"]} {[0%Z := "title"]} in
  let entity := mkEntity 7 1 [0%Z] [] in
  let title := mkClassPropertyValue 0 (obj (CText "Pioneer")) in
  let stale := mkClassPropertyValue 5 undefined in
  fst (toPlainObject (with_values entity [stale; title]) (mkWorld codec [])) =
    Return (<["title" := JStr "Pioneer"]>
              (<["id" := JNum 7]>
                 (<["inClassSchemaIndexes" := JArr [JNum 0]]>
                    (<["classId" := JNum 1]> ∅)))).
Proof.
  intros codec entity title stale.
  transitivity (fst (toPlainObject (with_values entity ([] ++ [title])) (mkWorld codec []))).
  - apply (f_equal fst).
    apply (unknown_index_dropped (mkWorld codec []) entity [] [title] stale).
    + cbn. lia.
    + vm_compute. reflexivity.
  - reflexivity.
Defined.

(** No field of a decoded object has the empty name. *)
Lemma foldM_toPlainObject_callback_no_empty_name vs (res r : PlainEntity)
    (w w' : World EntityCodec) :
  res !! "" = None ->
  foldM toPlainObject_callback res vs w = (Return r, w') ->
  r !! "" = None.
Proof.
  revert res w. induction vs as [|v vs IH]; intros res w Hres Hrun.
  - cbn in Hrun. injection Hrun as <- _. exact Hres.
  - cbn [foldM] in Hrun. unfold bind at 1 in Hrun.
    destruct (toPlainObject_callback res v w) as [[acc|e] w1] eqn:Hcb;
      [|discriminate Hrun].
    apply (IH acc w1); [|exact Hrun].
    revert Hcb. unfold toPlainObject_callback, bind, lift, propIndexToNameMap_get, gets, ret.
    destruct (BN_toNumber (in_class_index v)) as [propIdx|]; [|discriminate].
    destruct (propIndexToNameMap (this w) !! propIdx) as [propName|].
    + destruct (truthy propName) eqn:Htruthy.
      * destruct (substrateToPlain (value v)) as [plain|]; [|discriminate].
        intros [= <- _]. rewrite lookup_insert_ne; [exact Hres|].
        intros ->. discriminate Htruthy.
      * intros [= <- _]. exact Hres.
    + intros [= <- _]. exact Hres.
Qed.

Lemma toPlainObject_no_empty_name (entity : Entity) (r : PlainEntity)
    (w w' : World EntityCodec) :
  toPlainObject entity w = (Return r, w') -> r !! "" = None.
Proof.
  unfold toPlainObject, bind, lift.
  destruct (BN_toNumber (class_id entity)) as [classId|e]; [|discriminate].
  destruct (omap BN_toNumber (in_class_schema_indexes entity)) as [indexes|e];
    [|discriminate].
  destruct (BN_toNumber (id entity)) as [id_|e]; [|discriminate].
  apply foldM_toPlainObject_callback_no_empty_name.
  rewrite !lookup_insert_ne by discriminate. apply lookup_empty.
Qed.

(** C10. When the name of the property at position i of the schema is
    canonicalized to the empty string, toPlainObject on the instance built
    from the schema passes over a value of index i: it does on the record
    what it does on the record without that value, and no object it returns
    has a field of the empty name. *)
Theorem empty_field_name_omitted (camelCase : string -> string) (entityClass : Class_)
    (con : list LogEntry) (i : nat) (p : Property) (entity : Entity)
    (pre post : list (ClassPropertyValue CodecRef)) (v : ClassPropertyValue CodecRef) :
  properties entityClass !! i = Some p ->
  propNameToJsFieldStyle camelCase (name p) = "" ->
  in_class_index v = Z.of_nat i ->
  (Z.of_nat i < 2 ^ 16)%Z ->
  let w := mkWorld (new_EntityCodec camelCase entityClass) con in
  toPlainObject (with_values entity (pre ++ v :: post)) w =
    toPlainObject (with_values entity (pre ++ post)) w /\
  (forall vs r w', toPlainObject (with_values entity vs) w = (Return r, w') ->
     r !! "" = None).
Proof.
  intros Hp Hempty Hidx Hu16 w. split.
  - apply toPlainObject_skips.
    + apply u16_53_bits. lia.
    + right. unfold w. cbn [this]. rewrite new_EntityCodec_recorded, Hidx.
      rewrite <- Hempty. apply (recorded_index_lookup camelCase _ 0 _ i p Hp).
  - intros vs r w'. apply toPlainObject_no_empty_name.
Qed.

Lemma empty_field_name_omitted_witness :
  let entityClass := mkClass [mkProperty "Title" "Text"; mkProperty "?!" "Text"] in
  let entity := mkEntity 7 1 [0%Z] [] in
  let title := mkClassPropertyValue 0 (obj (CText "Pioneer")) in
  let marks := mkClassPropertyValue 1 (obj (CText "lost")) in
  fst (toPlainObject (with_values entity [title; marks])
         (mkWorld (new_EntityCodec camelCase_words entityClass) [])) =
    Return (<["title" := JStr "Pioneer"]>
              (<["id" := JNum 7]>
                 (<["inClassSchemaIndexes" := JArr [JNum 0]]>
                    (<["classId" := JNum 1]> ∅)))).
Proof.
  intros entityClass entity title marks.
  destruct (empty_field_name_omitted camelCase_words entityClass [] 1
              (mkProperty "?!" "Text") entity [title] [] marks) as [Hskip _].
  - reflexivity.
  - reflexivity.
  - reflexivity.
  - cbn. lia.
  - transitivity
      (fst (toPlainObject (with_values entity ([title] ++ []))
              (mkWorld (new_EntityCodec camelCase_words entityClass) []))).
    + apply (f_equal fst). exact Hskip.
    + reflexivity.
Defined.

(** C6. Evaluation of the decoder on a value that is absent: the guard of
    the last branch of substrateToPlain, which compares the result of
    typeof with the value undefined, lets undefined through to the call of
    toString, and toPlainObject throws for a record with such a value at a
    mapped index. The claim says that decoding does not throw and leaves an
    absent value out. *)
Theorem decode_of_absent_value_throws :
  let codec := mkEntityCodec {["title" := mkPropMeta 0 "Text"]} {[0%Z := "title"]} in
  let entity := mkEntity 7 1 [0%Z] [mkClassPropertyValue 0 undefined] in
  substrateToPlain undefined =
    Throw (TypeError "Cannot read property 'toString' of undefined") /\
  substrateToPlain null = Return JUndefined /\
  fst (toPlainObject entity (mkWorld codec [])) =
    Throw (TypeError "Cannot read property 'toString' of undefined").
Proof. intros codec entity. split; [|split]; reflexivity. Qed.

(** An integer that does not fit in 53 bits makes toNumber, and with it
    the decoder, throw as well: as a value and as the identifier. *)
Example decode_of_wide_integer_throws :
  let codec := mkEntityCodec {["views" := mkPropMeta 0 "Uint64"]} {[0%Z := "views"]} in
  substrateToPlain (obj (CBN (2 ^ 53))) =
    Throw (Error "Number can only safely store up to 53 bits") /\
  fst (toPlainObject (mkEntity (2 ^ 63) 1 [0%Z] []) (mkWorld codec [])) =
    Throw (Error "Number can only safely store up to 53 bits").
Proof. intros codec. split; reflexivity. Qed.

(** On a record whose integers fit in 53 bits and whose values at mapped
    indexes are codec objects of text, boolean or such integers, or null,
    the decoder returns. *)
Example decode_returns :
  let codec :=
    mkEntityCodec
      {["title" := mkPropMeta 0 "Text"; "public" := mkPropMeta 1 "Bool"]}
      {[0%Z := "title"; 1%Z := "public"]} in
  fst (toPlainObject
         (mkEntity 7 1 [0%Z]
            [mkClassPropertyValue 0 (obj (CText "Pioneer")); mkClassPropertyValue 1 null])
         (mkWorld codec [])) =
    Return (<["public" := JUndefined]>
              (<["title" := JStr "Pioneer"]>
                 (<["id" := JNum 7]>
                    (<["inClassSchemaIndexes" := JArr [JNum 0]]>
                       (<["classId" := JNum 1]> ∅))))).
Proof. intros codec. reflexivity. Qed.

(** * Further properties of the codec *)

(** ** The decoder of one value *)

Lemma BN_toNumber_Return (n r : Z) :
  BN_toNumber n = Return r <-> (Z.abs n <? 2 ^ 53)%Z = true /\ r = n.
Proof.
  unfold BN_toNumber. destruct (Z.abs n <? 2 ^ 53)%Z; split.
  - intros [= ->]. split; reflexivity.
  - intros [_ ->]. reflexivity.
  - discriminate.
  - intros [Hfalse _]. discriminate Hfalse.
Qed.

Lemma omap_Return {A B} (f : A -> Outcome B) (l : list A) (rs : list B) :
  omap f l = Return rs <-> Forall2 (fun x y => f x = Return y) l rs.
Proof.
  revert rs. induction l as [|x l IH]; intros rs; cbn [omap].
  - split.
    + intros [= <-]. constructor.
    + intros Hnil. inversion Hnil. reflexivity.
  - split.
    + destruct (f x) as [y|e] eqn:Hx; [|discriminate]. cbn [obind].
      destruct (omap f l) as [ys|e] eqn:Hl; [|discriminate]. cbn [obind].
      intros [= <-]. constructor; [exact Hx|]. apply IH. reflexivity.
    + intros Hcons. inversion Hcons as [|x' y l' ys Hx Hl]; subst.
      rewrite Hx. cbn [obind]. apply IH in Hl. rewrite Hl. reflexivity.
Qed.

(** The loop of the branch of [Vec] is [map] with the decoder. *)
Lemma substrateToPlain_obj_Vec (ys : list Codec) :
  substrateToPlain_obj (CVec ys) =
    (let! rs := omap substrateToPlain_obj ys in Return (JArr rs)).
Proof.
  cbn [substrateToPlain_obj]. f_equal.
  induction ys as [|y ys IH]; [reflexivity|].
  cbn [omap]. rewrite IH. reflexivity.
Qed.

(** X1. A vector is decoded element by element: the decoder returns on a
    vector exactly when it returns on each element, and the result is then
    the array of the decoded elements, in order and of the same length. *)
Theorem vector_decoded_elementwise (ys : list Codec) (plain : JsVal) :
  substrateToPlain (obj (CVec ys)) = Return plain <->
  exists rs, plain = JArr rs /\
    Forall2 (fun y r => substrateToPlain (obj y) = Return r) ys rs.
Proof.
  cbn [substrateToPlain]. rewrite substrateToPlain_obj_Vec. split.
  - destruct (omap substrateToPlain_obj ys) as [rs|e] eqn:Hys; [|discriminate].
    cbn [obind]. intros [= <-]. exists rs. split; [reflexivity|].
    apply omap_Return in Hys. exact Hys.
  - intros (rs & -> & Hall). apply omap_Return in Hall.
    cbn [substrateToPlain] in Hall. rewrite Hall. reflexivity.
Qed.

(** X23. Decoding a vector throws the exception of the first of its
    elements on which the decoder throws: the elements after it are not
    decoded. *)
Theorem vector_decode_first_exception (pre post : list Codec) (y : Codec) (e : JsError) :
  Forall (fun x => fits_53_bits x = true) pre ->
  substrateToPlain (obj y) = Throw e ->
  substrateToPlain (obj (CVec (pre ++ y :: post))) = Throw e.
Proof.
  intros Hpre Hy. cbn [substrateToPlain] in *. rewrite substrateToPlain_obj_Vec.
  assert (omap substrateToPlain_obj (pre ++ y :: post) = Throw e) as ->; [|reflexivity].
  induction Hpre as [|x pre Hx _ IH]; cbn [app omap].
  - rewrite Hy. reflexivity.
  - destruct (substrateToPlain_obj_returns x Hx) as [r ->]. cbn [obind].
    rewrite IH. reflexivity.
Qed.

Lemma vector_decode_first_exception_witness :
  substrateToPlain (obj (CVec [CBN 1; CBN (2 ^ 60); CBN (2 ^ 70)])) =
    Throw (Error "Number can only safely store up to 53 bits").
Proof.
  apply (vector_decode_first_exception [CBN 1] [CBN (2 ^ 70)] (CBN (2 ^ 60))).
  - repeat constructor.
  - reflexivity.
Defined.

Lemma substrateToPlain_obj_fits (x : Codec) (plain : JsVal) :
  substrateToPlain_obj x = Return plain -> fits_53_bits x = true.
Proof.
  revert x plain. fix IH 1. intros [s|n|b|ys|str] plain; cbn [fits_53_bits];
    try reflexivity.
  - cbn [substrateToPlain_obj]. destruct (BN_toNumber n) as [r|e] eqn:Hn; [|discriminate].
    intros _. apply BN_toNumber_Return in Hn as [Hn _]. exact Hn.
  - rewrite substrateToPlain_obj_Vec.
    destruct (omap substrateToPlain_obj ys) as [rs|e] eqn:Hys; [|discriminate].
    intros _. revert rs Hys. induction ys as [|y ys IHys]; intros rs Hys; [reflexivity|].
    cbn [omap] in Hys. cbn [forallb].
    destruct (substrateToPlain_obj y) as [r|e] eqn:Hy; [|discriminate].
    cbn [obind] in Hys.
    destruct (omap substrateToPlain_obj ys) as [rs'|e] eqn:Hys'; [|discriminate].
    rewrite (IH y r Hy), (IHys rs' eq_refl). reflexivity.
Qed.

(** X2. The decoder returns exactly on [null] and on the codec objects all
    of whose integers fit in 53 bits; it throws on [undefined] and on an
    object that holds, at any depth, an integer of 54 bits or more. *)
Theorem decoder_returns_iff (x : CodecRef) :
  (exists plain, substrateToPlain x = Return plain) <->
  match x with
  | undefined => False
  | null => True
  | obj c => fits_53_bits c = true
  end.
Proof.
  destruct x as [| |c].
  - split; [intros [plain Hplain]; discriminate Hplain | contradiction].
  - split; [intros _; exact I | intros _; eexists; reflexivity].
  - cbn [substrateToPlain]. split.
    + intros [plain Hplain]. apply (substrateToPlain_obj_fits c plain Hplain).
    + apply substrateToPlain_obj_returns.
Qed.

(** X3. What the decoder returns is never [null] and never a plain object;
    it is [undefined] only when the value decoded is [null]. *)
Theorem decoder_result_kinds (x : CodecRef) (plain : JsVal) :
  substrateToPlain x = Return plain ->
  typeof plain ∈ ["string"; "number"; "boolean"; "object"; "undefined"] /\
  plain <> JNull /\
  (forall fields, plain <> JObj fields) /\
  (plain = JUndefined <-> x = null).
Proof.
  destruct x as [| |c]; cbn [substrateToPlain]; cbn.
  - discriminate.
  - intros [= <-]. repeat split; try discriminate; try reflexivity.
    do 4 right. left.
  - destruct c as [s|n|b|ys|str].
    + intros [= <-]. repeat split; try discriminate. left.
    + cbn [substrateToPlain_obj]. destruct (BN_toNumber n); [|discriminate].
      intros [= <-]. repeat split; try discriminate. right. left.
    + intros [= <-]. repeat split; try discriminate. do 2 right. left.
    + rewrite substrateToPlain_obj_Vec.
      destruct (omap substrateToPlain_obj ys); [|discriminate].
      intros [= <-]. repeat split; try discriminate. do 3 right. left.
    + intros [= <-]. repeat split; try discriminate. left.
Qed.

Lemma decoder_result_kinds_witness :
  JArr [JNum 5; JStr "x"] <> JNull.
Proof.
  apply (decoder_result_kinds (obj (CVec [CBN 5; CText "x"])) (JArr [JNum 5; JStr "x"])).
  reflexivity.
Defined.

(** ** The encoder of one value *)

Ltac each_type_name H :=
  unfold propertyTypeNames, primitiveTypeNames, vectorTypeNames in H;
  cbn [app] in H;
  repeat (apply elem_of_cons in H as [-> | H]);
  [.. | apply elem_of_nil in H; contradiction].





Lemma plainToSubstrate_pv_type (propType : string) (v : JsVal) (codecValue : PropertyValue) :
  plainToSubstrate propType v = Return codecValue -> pv_type codecValue = propType.
Proof.
  destruct (decide (propType ∈ propertyTypeNames)) as [Hin | Hnot].
  - each_type_name Hin; try (intros [= <-]; reflexivity).
    + change (plainToSubstrate "Bool" v)
        with (let! (b, _) := valueAsBool v in encoded "Bool" (PV.Bool b)).
      destruct (valueAsBool v) as [[b v']|e]; [|discriminate].
      intros [= <-]. reflexivity.
    + change (plainToSubstrate "BoolVec" v)
        with (let! (bs, _) := valueAsBoolArr v in encoded "BoolVec" (PV.BoolVec bs)).
      destruct (valueAsBoolArr v) as [[bs v']|e]; [|discriminate].
      intros [= <-]. reflexivity.
  - rewrite (unknown_type_name_throws propType v Hnot). discriminate.
Qed.

(** X5. A typed value that the encoder returns is tagged with the type
    name it was asked for. *)
Theorem encoder_keeps_type_name (propType : string) (v : JsVal) (codecValue : PropertyValue) :
  plainToSubstrate propType v = Return codecValue -> pv_type codecValue = propType.
Proof. apply plainToSubstrate_pv_type. Qed.

Lemma encoder_keeps_type_name_witness :
  pv_type (mkPropertyValue "Int32" (PV.Int32 (JStr "-7"))) = "Int32".
Proof.
  apply (encoder_keeps_type_name "Int32" (JStr "-7")). reflexivity.
Defined.

(** The string form of a number has no letter, so that lower-casing leaves
    it as it is. *)
Lemma no_letters_pretty_N_go (x : N) (s : string) :
  no_letters s = true -> no_letters (pretty_N_go x s) = true.
Proof.
  revert s. induction (N.lt_wf_0 x) as [x _ IH]; intros s Hs.
  assert (x = 0 \/ 0 < x)%N as [-> | Hpos] by lia.
  - rewrite pretty_N_go_0. exact Hs.
  - rewrite pretty_N_go_step by exact Hpos. apply IH.
    + apply N.div_lt; [exact Hpos | reflexivity].
    + cbn [no_letters]. rewrite Hs, andb_true_r.
      unfold pretty_N_char. repeat case_match; reflexivity.
Qed.

Lemma no_letters_pretty (n : Z) : no_letters (pretty n) = true.
Proof.
  assert (forall p : positive, no_letters (pretty p) = true) as Hpos.
  { intros p. unfold pretty, pretty_positive, pretty, pretty_N.
    case_decide; [reflexivity|]. apply no_letters_pretty_N_go. reflexivity. }
  destruct n as [|p|p]; [reflexivity | apply Hpos |].
  unfold pretty, pretty_Z. cbn [String.append no_letters]. apply Hpos.
Qed.

Lemma toLowerCase_no_letters (s : string) :
  no_letters s = true -> toLowerCase s = s.
Proof.
  induction s as [|c s IH]; [reflexivity|]. cbn [no_letters toLowerCase].
  intros Hcs. apply andb_true_iff in Hcs as [Hc Hs]. rewrite (IH Hs). f_equal.
  unfold lower_ascii, is_letter in *.
  destruct ((65 <=? nat_of_ascii c)%nat && (nat_of_ascii c <=? 90)%nat)%bool;
    [discriminate Hc | reflexivity].
Qed.

Lemma pretty_is_word_iff (v : Z) :
  toLowerCase (pretty v) ∈ ["true"; "yes"; "1"] <-> v = 1%Z.
Proof.
  rewrite (toLowerCase_no_letters _ (no_letters_pretty v)). split.
  - intros Hin. pose proof (no_letters_pretty v) as Hno.
    repeat (apply elem_of_cons in Hin as [Heq | Hin]).
    + rewrite Heq in Hno. discriminate Hno.
    + rewrite Heq in Hno. discriminate Hno.
    + apply (inj pretty). exact Heq.
    + apply elem_of_nil in Hin. contradiction.
  - intros ->. do 2 right. left.
Qed.

Lemma to_double_gt_1 (x : Z) : (2 ^ 53 < x)%Z -> (1 < to_double x)%Z.
Proof.
  intros Hx. unfold to_double.
  assert (53 <= Z.log2 x)%Z as Hlog.
  { change 53%Z with (Z.log2 (2 ^ 53)). apply Z.log2_le_mono. lia. }
  destruct (Z.leb_spec (Z.log2 x + 1) 53) as [Hle | _]; [lia|]. cbv zeta.
  set (shift := (Z.log2 x + 1 - 53)%Z).
  assert (1 <= shift)%Z as Hshift by (unfold shift; lia).
  assert (2 <= 2 ^ shift)%Z as Hpow.
  { change 2%Z with (2 ^ 1)%Z at 1. apply Z.pow_le_mono_r; lia. }
  assert (2 ^ shift <= x)%Z as Hbelow.
  { transitivity (2 ^ Z.log2 x)%Z.
    - apply Z.pow_le_mono_r; unfold shift; lia.
    - apply Z.log2_spec. lia. }
  assert (1 <= x / 2 ^ shift)%Z as Hq.
  { apply Z.div_le_lower_bound; lia. }
  destruct ((2 ^ (shift - 1) <? x mod 2 ^ shift)%Z
            || ((x mod 2 ^ shift =? 2 ^ (shift - 1))%Z && Z.odd (x / 2 ^ shift)))%bool; nia.
Qed.

Lemma shortest_read_back (x : Z) (e : nat) :
  shortest x e = x \/ to_double (shortest x e) = x.
Proof.
  induction e as [|e IH]; [left; reflexivity|].
  cbn [shortest]. cbv zeta.
  set (p := (10 ^ Z.of_nat (S e))%Z).
  destruct (to_double (x / p * p) =? x)%Z eqn:Hlo;
    destruct (to_double (x / p * p + p) =? x)%Z eqn:Hhi;
    try apply Z.eqb_eq in Hlo; try apply Z.eqb_eq in Hhi.
  - destruct (x - x / p * p <? x / p * p + p - x)%Z; [right; exact Hlo|].
    destruct (x / p * p + p - x <? x - x / p * p)%Z; [right; exact Hhi|].
    destruct (Z.even (x / p)); right; assumption.
  - right. exact Hlo.
  - right. exact Hhi.
  - exact IH.
Qed.

Lemma exponential_is_no_word (digits : string) :
  toLowerCase digits ∉ ["true"; "yes"; "1"] ->
  toLowerCase (exponential digits) ∉ ["true"; "yes"; "1"].
Proof.
  intros Hdigits. unfold exponential.
  destruct (significand digits) as [|c [|c' rest]]; [exact Hdigits | |];
    cbn [String.append toLowerCase]; intros Hin;
    repeat (apply elem_of_cons in Hin as [Heq | Hin]; [discriminate Heq|]);
    apply elem_of_nil in Hin; exact Hin.
Qed.

Lemma positive_toString_is_word_iff (x : Z) :
  (0 < x)%Z ->
  toLowerCase (positive_toString x) ∈ ["true"; "yes"; "1"] <-> x = 1%Z.
Proof.
  intros Hpos. unfold positive_toString.
  destruct (Z.leb_spec x (2 ^ 53)) as [Hsafe | Hwide]; [apply pretty_is_word_iff|].
  assert (x <> 1%Z) as Hne by lia.
  split; [|intros Heq; contradiction]. intros Hin. exfalso. revert Hin. cbv zeta.
  destruct (2 ^ 1024 <=? to_double x)%Z.
  - intros Hin. repeat (apply elem_of_cons in Hin as [Heq | Hin]; [discriminate Heq|]).
    apply elem_of_nil in Hin. exact Hin.
  - set (v := shortest (to_double x) (Z.to_nat (Z.log2 (to_double x)) + 1)).
    assert (toLowerCase (pretty v) ∉ ["true"; "yes"; "1"]) as Hv.
    { rewrite pretty_is_word_iff. intros Hv1.
      pose proof (to_double_gt_1 x Hwide) as Hd.
      destruct (shortest_read_back (to_double x) (Z.to_nat (Z.log2 (to_double x)) + 1))
        as [Hsame | Hback]; fold v in Hsame || fold v in Hback.
      - lia.
      - rewrite Hv1 in Hback. change (to_double 1) with 1%Z in Hback. lia. }
    destruct (String.length (pretty v) <=? 21)%nat; [exact Hv|].
    apply exponential_is_no_word. exact Hv.
Qed.

Lemma Number_toString_is_word_iff (n : Z) :
  toLowerCase (Number_toString n) ∈ ["true"; "yes"; "1"] <-> n = 1%Z.
Proof.
  destruct n as [|p|p].
  - split; [|discriminate]. intros Hin.
    repeat (apply elem_of_cons in Hin as [Heq | Hin]; [discriminate Heq|]).
    apply elem_of_nil in Hin. contradiction.
  - apply positive_toString_is_word_iff. lia.
  - split; [|discriminate]. unfold Number_toString.
    cbn [String.append toLowerCase]. intros Hin.
    repeat (apply elem_of_cons in Hin as [Heq | Hin]; [discriminate Heq|]).
    apply elem_of_nil in Hin. contradiction.
Qed.

(** X6. Of a number, the encoder of Bool makes true when the number is 1
    and false for every other number. *)
Theorem Bool_of_number (n : Z) :
  plainToSubstrate "Bool" (JNum n) = encoded "Bool" (PV.Bool (bool_decide (n = 1%Z))).
Proof.
  change (plainToSubstrate "Bool" (JNum n))
    with (let! (b, _) := valueAsBool (JNum n) in encoded "Bool" (PV.Bool b)).
  destruct (valueAsBool_string_or_number (JNum n)) as [v' ->]; [right; reflexivity|].
  cbn [obind primitive_toString]. do 2 f_equal.
  apply bool_decide_ext. apply Number_toString_is_word_iff.
Qed.

(** ** The two maps of an instance *)

Section Maps.

Variable camelCase : string -> string.

Lemma new_EntityCodec_index_lookup (entityClass : Class_) (z : Z) :
  propIndexToNameMap (new_EntityCodec camelCase entityClass) !! z =
    if (0 <=? z)%Z
    then fieldName camelCase <$> properties entityClass !! Z.to_nat z
    else None.
Proof.
  rewrite new_EntityCodec_recorded.
  destruct (Z.leb_spec 0 z) as [Hz | Hz].
  - destruct (properties entityClass !! Z.to_nat z) as [p|] eqn:Hp;
      cbn [fmap option_fmap option_map].
    + rewrite <- (recorded_index_lookup camelCase _ 0 EntityCodec_fields _ p Hp).
      f_equal. cbn [Nat.add]. lia.
    + rewrite recorded_index_above; [apply lookup_empty|].
      apply lookup_ge_None in Hp. cbn [Nat.add]. lia.
  - rewrite recorded_index_below by (cbn; lia). apply lookup_empty.
Qed.

(** X7. The index-to-name map of the instance built from a schema holds,
    at each position of the schema, the canonical name of the property at
    that position, and nothing at any other number. *)
Theorem index_to_name_map_of_schema (entityClass : Class_) (z : Z) :
  propIndexToNameMap (new_EntityCodec camelCase entityClass) !! z =
    if (0 <=? z)%Z
    then fieldName camelCase <$> properties entityClass !! Z.to_nat z
    else None.
Proof. apply new_EntityCodec_index_lookup. Qed.

Lemma recorded_name_last (ps : list Property) (start : nat) (c : EntityCodec)
    (j : nat) (p : Property) :
  ps !! j = Some p ->
  (forall j' q, (j < j')%nat -> ps !! j' = Some q ->
     fieldName camelCase q <> fieldName camelCase p) ->
  propNameToMetaMap (recorded camelCase start ps c) !! fieldName camelCase p =
    Some (mkPropMeta (Z.of_nat (start + j)) (prop_type p)).
Proof.
  revert start c j. induction ps as [|q ps IH]; intros start c j Hj Hlast; [discriminate|].
  cbn [recorded]. destruct j as [|j]; cbn in Hj.
  - injection Hj as ->. rewrite recorded_name_other.
    + cbn [propNameToMetaMap]. replace (start + 0)%nat with start by lia.
      apply lookup_insert_eq.
    + intros Hin. apply list_elem_of_fmap in Hin as (q & Heq & Hq).
      apply list_elem_of_lookup in Hq as [j' Hj'].
      apply (Hlast (S j') q); [lia | exact Hj' | symmetry; exact Heq].
  - replace (start + S j)%nat with (S start + j)%nat by lia.
    apply IH; [exact Hj|].
    intros j' q' Hlt Hq'. apply (Hlast (S j') q'); [lia | exact Hq'].
Qed.

Lemma last_position_of_name (ps : list Property) (propName : string) :
  propName ∈ fieldName camelCase <$> ps ->
  exists j p, ps !! j = Some p /\ fieldName camelCase p = propName /\
    forall j' q, (j < j')%nat -> ps !! j' = Some q -> fieldName camelCase q <> propName.
Proof.
  induction ps as [|p ps IH]; intros Hin.
  - apply elem_of_nil in Hin. contradiction.
  - destruct (decide (propName ∈ fieldName camelCase <$> ps)) as [Hlater | Hnot].
    + destruct (IH Hlater) as (j & q & Hj & Hname & Hlast).
      exists (S j), q. split; [exact Hj|]. split; [exact Hname|].
      intros [|j'] q' Hlt Hq'; [lia|]. apply (Hlast j' q'); [lia | exact Hq'].
    + rewrite fmap_cons in Hin. apply elem_of_cons in Hin as [Heq | Hin]; [|contradiction].
      exists 0%nat, p. split; [reflexivity|]. split; [symmetry; exact Heq|].
      intros [|j'] q' Hlt Hq'; [lia|]. cbn in Hq'.
      intros Hname. apply Hnot. apply list_elem_of_fmap. exists q'.
      split; [symmetry; exact Hname|]. apply list_elem_of_lookup. exists j'. exact Hq'.
Qed.

Lemma new_EntityCodec_name_lookup (entityClass : Class_) (propName : string)
    (meta : PropMeta) :
  propNameToMetaMap (new_EntityCodec camelCase entityClass) !! propName = Some meta <->
  exists i p,
    properties entityClass !! i = Some p /\
    fieldName camelCase p = propName /\
    meta = mkPropMeta (Z.of_nat i) (prop_type p) /\
    forall j q, (i < j)%nat -> properties entityClass !! j = Some q ->
      fieldName camelCase q <> propName.
Proof.
  rewrite new_EntityCodec_recorded. split.
  - intros Hmeta.
    destruct (decide (propName ∈ fieldName camelCase <$> properties entityClass))
      as [Hin | Hnot].
    + destruct (last_position_of_name _ _ Hin) as (i & p & Hi & Hname & Hlast).
      exists i, p. split; [exact Hi|]. split; [exact Hname|]. split; [|exact Hlast].
      subst propName.
      rewrite (recorded_name_last _ 0 _ i p Hi Hlast) in Hmeta.
      injection Hmeta as <-. reflexivity.
    + rewrite recorded_name_other in Hmeta by exact Hnot.
      cbn in Hmeta. rewrite lookup_empty in Hmeta. discriminate Hmeta.
  - intros (i & p & Hi & <- & -> & Hlast).
    apply (recorded_name_last _ 0 _ i p Hi Hlast).
Qed.

(** X8. The name-to-meta map of the instance built from a schema, whether
    or not two names of the schema collide: a name is mapped to the
    position and the type of the last property of the schema that has this
    canonical name, and a name that no property has is not mapped. *)
Theorem name_to_meta_map_of_schema (entityClass : Class_) (propName : string)
    (meta : PropMeta) :
  propNameToMetaMap (new_EntityCodec camelCase entityClass) !! propName = Some meta <->
  exists i p,
    properties entityClass !! i = Some p /\
    fieldName camelCase p = propName /\
    meta = mkPropMeta (Z.of_nat i) (prop_type p) /\
    forall j q, (i < j)%nat -> properties entityClass !! j = Some q ->
      fieldName camelCase q <> propName.
Proof. apply new_EntityCodec_name_lookup. Qed.

Lemma new_EntityCodec_maps_agree (entityClass : Class_) (propName : string) (meta : PropMeta) :
  propNameToMetaMap (new_EntityCodec camelCase entityClass) !! propName = Some meta ->
  (0 <= index meta < Z.of_nat (length (properties entityClass)))%Z /\
  propIndexToNameMap (new_EntityCodec camelCase entityClass) !! index meta = Some propName /\
  prop_type <$> properties entityClass !! Z.to_nat (index meta) = Some (type meta).
Proof.
  intros Hmeta. apply new_EntityCodec_name_lookup in Hmeta as (i & p & Hi & <- & -> & _).
  cbn [index type]. split; [|split].
  - apply lookup_lt_Some in Hi. lia.
  - rewrite new_EntityCodec_index_lookup.
    destruct (Z.leb_spec 0 (Z.of_nat i)) as [_ | Hneg]; [|lia].
    rewrite Nat2Z.id, Hi. reflexivity.
  - rewrite Nat2Z.id, Hi. reflexivity.
Qed.

(** X9. The two maps of an instance agree: the index that a name is mapped
    to is a position of the schema, the index-to-name map gives the name
    back at that index, and the type recorded is the type of the property
    at that position. *)
Theorem maps_agree (entityClass : Class_) (propName : string) (meta : PropMeta) :
  propNameToMetaMap (new_EntityCodec camelCase entityClass) !! propName = Some meta ->
  (0 <= index meta < Z.of_nat (length (properties entityClass)))%Z /\
  propIndexToNameMap (new_EntityCodec camelCase entityClass) !! index meta = Some propName /\
  prop_type <$> properties entityClass !! Z.to_nat (index meta) = Some (type meta).
Proof. apply new_EntityCodec_maps_agree. Qed.

(** X10. When two properties of a schema have the same canonical name,
    inClassIndexOfProp does not give, for that name, the position of the
    first of the two: it gives a later position; the first position is
    still mapped to the name by the index-to-name map. *)
Theorem colliding_names_keep_the_later (entityClass : Class_) (con : list LogEntry)
    (i j : nat) (p q : Property) :
  properties entityClass !! i = Some p ->
  properties entityClass !! j = Some q ->
  (i < j)%nat ->
  fieldName camelCase p = fieldName camelCase q ->
  let w := mkWorld (new_EntityCodec camelCase entityClass) con in
  (exists k, inClassIndexOfProp (fieldName camelCase p) w = (Return (Some (Z.of_nat k)), w) /\
             (j <= k)%nat) /\
  propIndexToNameMap (new_EntityCodec camelCase entityClass) !! Z.of_nat i =
    Some (fieldName camelCase p).
Proof.
  intros Hi Hj Hlt Hsame w. split.
  - assert (fieldName camelCase p ∈ fieldName camelCase <$> properties entityClass) as Hin.
    { apply list_elem_of_fmap. exists p. split; [reflexivity|].
      apply list_elem_of_lookup. exists i. exact Hi. }
    destruct (last_position_of_name _ _ Hin) as (k & r & Hk & Hname & Hlast).
    exists k. split.
    + unfold inClassIndexOfProp, propNameToMetaMap_get, gets, bind, ret, w. cbn [this].
      assert (propNameToMetaMap (new_EntityCodec camelCase entityClass)
                !! fieldName camelCase p = Some (mkPropMeta (Z.of_nat k) (prop_type r)))
        as ->; [|reflexivity].
      apply new_EntityCodec_name_lookup. exists k, r. auto.
    + destruct (decide (j <= k)%nat) as [Hle | Hgt]; [exact Hle|].
      exfalso. apply (Hlast j q); [lia | exact Hj | symmetry; exact Hsame].
  - rewrite new_EntityCodec_index_lookup.
    destruct (Z.leb_spec 0 (Z.of_nat i)) as [_ | Hneg]; [|lia].
    rewrite Nat2Z.id, Hi. reflexivity.
Qed.

End Maps.

Lemma maps_agree_witness :
  let entityClass := mkClass [mkProperty "Title" "Text"; mkProperty "Full Name" "Text"] in
  propIndexToNameMap (new_EntityCodec camelCase_words entityClass) !! 1%Z = Some "fullName".
Proof.
  intros entityClass.
  apply (maps_agree camelCase_words entityClass "fullName" (mkPropMeta 1 "Text")).
  vm_compute. reflexivity.
Defined.

Lemma colliding_names_keep_the_later_witness :
  let entityClass := mkClass [mkProperty "first name" "Text"; mkProperty "First Name" "Bool"] in
  let w := mkWorld (new_EntityCodec camelCase_words entityClass) [] in
  (exists k, inClassIndexOfProp "firstName" w = (Return (Some (Z.of_nat k)), w) /\ (1 <= k)%nat) /\
  propIndexToNameMap (new_EntityCodec camelCase_words entityClass) !! 0%Z = Some "firstName".
Proof.
  intros entityClass w.
  apply (colliding_names_keep_the_later camelCase_words entityClass [] 0 1
           (mkProperty "first name" "Text") (mkProperty "First Name" "Bool")).
  - reflexivity.
  - reflexivity.
  - lia.
  - reflexivity.
Defined.

(** ** The decoder of an entity *)

Lemma silent_bind {St A B} (m : M St A) (k : A -> M St B) :
  silent m -> (forall a, silent (k a)) -> silent (bind m k).
Proof.
  intros Hm Hk w. unfold bind. specialize (Hm w).
  destruct (m w) as [[a|e] w']; cbn [snd] in *; subst w'; [apply Hk | reflexivity].
Qed.

Lemma silent_foldM {St A B} (f : B -> A -> M St B) (arr : list A) :
  (forall acc x, silent (f acc x)) -> forall acc, silent (foldM f acc arr).
Proof.
  intros Hf. induction arr as [|x arr IH]; intros acc; cbn [foldM].
  - intros w. reflexivity.
  - apply silent_bind; [apply Hf | exact IH].
Qed.

Lemma silent_mapM {St A B} (f : A -> M St B) (arr : list A) :
  (forall x, silent (f x)) -> silent (mapM f arr).
Proof.
  intros Hf. induction arr as [|x arr IH]; cbn [mapM].
  - intros w. reflexivity.
  - apply silent_bind; [apply Hf|]. intros y.
    apply silent_bind; [exact IH|]. intros ys w. reflexivity.
Qed.

Lemma toPlainObject_callback_silent res v : silent (toPlainObject_callback res v).
Proof.
  unfold toPlainObject_callback.
  apply silent_bind; [intros w; reflexivity|]. intros propIdx.
  apply silent_bind; [intros w; reflexivity|]. intros [propName|]; [|intros w; reflexivity].
  destruct (truthy propName); [|intros w; reflexivity].
  apply silent_bind; [intros w; reflexivity|]. intros plain w. reflexivity.
Qed.

Lemma toPlainObject_silent (entity : Entity) : silent (toPlainObject entity).
Proof.
  unfold toPlainObject.
  repeat (apply silent_bind; [intros w; reflexivity|]; intros ?).
  apply silent_foldM. apply toPlainObject_callback_silent.
Qed.

(** What a call of the callback that returns has done. *)
Lemma toPlainObject_callback_Return res v acc (w w' : World EntityCodec) :
  toPlainObject_callback res v w = (Return acc, w') ->
  (Z.abs (in_class_index v) <? 2 ^ 53)%Z = true /\
  match propIndexToNameMap (this w) !! in_class_index v with
  | Some propName =>
      if truthy propName
      then exists plain, substrateToPlain (value v) = Return plain /\
                         acc = <[propName := plain]> res
      else acc = res
  | None => acc = res
  end.
Proof.
  unfold toPlainObject_callback, bind, lift, propIndexToNameMap_get, gets, ret.
  destruct (BN_toNumber (in_class_index v)) as [propIdx|e] eqn:Hidx; [|discriminate].
  apply BN_toNumber_Return in Hidx as [H53 ->]. intros Hrun. split; [exact H53|].
  destruct (propIndexToNameMap (this w) !! in_class_index v) as [propName|].
  - destruct (truthy propName).
    + destruct (substrateToPlain (value v)) as [plain|e]; [|discriminate Hrun].
      injection Hrun as <- _. exists plain. split; reflexivity.
    + injection Hrun as <- _. reflexivity.
  - injection Hrun as <- _. reflexivity.
Qed.

Lemma foldM_toPlainObject_callback_cons v vs res r (w w' : World EntityCodec) :
  foldM toPlainObject_callback res (v :: vs) w = (Return r, w') ->
  exists acc, toPlainObject_callback res v w = (Return acc, w) /\
              foldM toPlainObject_callback acc vs w = (Return r, w').
Proof.
  cbn [foldM]. unfold bind at 1.
  pose proof (toPlainObject_callback_silent res v w) as Hsilent.
  destruct (toPlainObject_callback res v w) as [[acc|e] w1]; [|discriminate].
  cbn [snd] in Hsilent. subst w1. intros Hrun. exists acc. split; [reflexivity | exact Hrun].
Qed.

(** A name to which no value of the list is mapped keeps its field. *)
Lemma foldM_toPlainObject_callback_other vs res r (w w' : World EntityCodec) (k : string) :
  foldM toPlainObject_callback res vs w = (Return r, w') ->
  (forall v, v ∈ vs -> propIndexToNameMap (this w) !! in_class_index v <> Some k) ->
  r !! k = res !! k.
Proof.
  revert res. induction vs as [|v vs IH]; intros res Hrun Hother.
  - cbn in Hrun. injection Hrun as <- _. reflexivity.
  - apply foldM_toPlainObject_callback_cons in Hrun as (acc & Hcb & Hrun).
    rewrite (IH acc Hrun) by (intros v' Hv'; apply Hother; right; exact Hv').
    apply toPlainObject_callback_Return in Hcb as [_ Hcb].
    assert (propIndexToNameMap (this w) !! in_class_index v <> Some k) as Hv
      by (apply Hother; left).
    destruct (propIndexToNameMap (this w) !! in_class_index v) as [propName|];
      [|subst acc; reflexivity].
    destruct (truthy propName); [|subst acc; reflexivity].
    destruct Hcb as (plain & _ & ->). apply lookup_insert_ne. congruence.
Qed.

(** A field of the result was a field before or has the name of a value. *)
Lemma foldM_toPlainObject_callback_keys vs res r (w w' : World EntityCodec) (k : string) :
  foldM toPlainObject_callback res vs w = (Return r, w') ->
  is_Some (r !! k) ->
  is_Some (res !! k) \/
  exists v, v ∈ vs /\ propIndexToNameMap (this w) !! in_class_index v = Some k /\ k <> "".
Proof.
  revert res. induction vs as [|v vs IH]; intros res Hrun Hk.
  - cbn in Hrun. injection Hrun as <- _. left. exact Hk.
  - apply foldM_toPlainObject_callback_cons in Hrun as (acc & Hcb & Hrun).
    destruct (IH acc Hrun Hk) as [Hacc | (v' & Hv' & Hname & Hne)].
    + apply toPlainObject_callback_Return in Hcb as [_ Hcb].
      destruct (propIndexToNameMap (this w) !! in_class_index v) as [propName|] eqn:Hname;
        [|subst acc; left; exact Hacc].
      destruct (truthy propName) eqn:Htruthy; [|subst acc; left; exact Hacc].
      destruct Hcb as (plain & _ & ->).
      destruct (decide (propName = k)) as [-> | Hne].
      * right. exists v. split; [left|]. split; [exact Hname|].
        intros ->. discriminate Htruthy.
      * left. rewrite lookup_insert_ne in Hacc by exact Hne. exact Hacc.
    + right. exists v'. split; [right; exact Hv'|]. split; assumption.
Qed.

(** What a call of [toPlainObject] that returns has done. *)
Lemma toPlainObject_Return (entity : Entity) (r : PlainEntity) (w w' : World EntityCodec) :
  toPlainObject entity w = (Return r, w') ->
  metadata_fit entity /\
  foldM toPlainObject_callback
    (<["id" := JNum (id entity)]>
       (<["inClassSchemaIndexes" := JArr (JNum <$> in_class_schema_indexes entity)]>
          (<["classId" := JNum (class_id entity)]> ∅)))
    (entity_values entity) w = (Return r, w').
Proof.
  unfold toPlainObject, bind, lift, metadata_fit.
  destruct (BN_toNumber (class_id entity)) as [classId|e] eqn:Hclass; [|discriminate].
  destruct (omap BN_toNumber (in_class_schema_indexes entity)) as [indexes|e] eqn:Hindexes;
    [|discriminate].
  destruct (BN_toNumber (id entity)) as [id_|e] eqn:Hid; [|discriminate].
  apply BN_toNumber_Return in Hclass as [Hclass ->].
  apply BN_toNumber_Return in Hid as [Hid ->].
  apply omap_Return in Hindexes.
  assert (indexes = in_class_schema_indexes entity /\
          Forall (fun n => (Z.abs n <? 2 ^ 53)%Z = true) (in_class_schema_indexes entity))
    as [-> Hfit].
  { induction Hindexes as [|n m l l' Hn _ [IHeq IHfit]]; [split; [reflexivity|constructor]|].
    apply BN_toNumber_Return in Hn as [Hn ->]. subst l'.
    split; [reflexivity | constructor; assumption]. }
  intros Hrun. split; [split; [exact Hclass | split; [exact Hid | exact Hfit]] | exact Hrun].
Qed.

(** X11. The three metadata fields of a decoded object are the
    identifiers and the schema indexes of the entity, whatever its values,
    provided no value is mapped to a field of one of these three names. *)
Theorem metadata_passthrough (entity : Entity) (r : PlainEntity) (w w' : World EntityCodec) :
  toPlainObject entity w = (Return r, w') ->
  (forall v propName, v ∈ entity_values entity ->
     propIndexToNameMap (this w) !! in_class_index v = Some propName ->
     propName ∉ metadataKeys) ->
  r !! "classId" = Some (JNum (class_id entity)) /\
  r !! "inClassSchemaIndexes" = Some (JArr (JNum <$> in_class_schema_indexes entity)) /\
  r !! "id" = Some (JNum (id entity)).
Proof.
  intros Hrun Hnames. apply toPlainObject_Return in Hrun as [_ Hrun].
  assert (forall k, k ∈ metadataKeys ->
            forall v, v ∈ entity_values entity ->
              propIndexToNameMap (this w) !! in_class_index v <> Some k) as Hother.
  { intros k Hk v Hv Hname. apply (Hnames v k Hv Hname Hk). }
  split; [|split].
  - rewrite (foldM_toPlainObject_callback_other _ _ _ _ _ "classId" Hrun)
      by (apply Hother; left).
    reflexivity.
  - rewrite (foldM_toPlainObject_callback_other _ _ _ _ _ "inClassSchemaIndexes" Hrun)
      by (apply Hother; right; left).
    reflexivity.
  - rewrite (foldM_toPlainObject_callback_other _ _ _ _ _ "id" Hrun)
      by (apply Hother; do 2 right; left).
    reflexivity.
Qed.

Lemma metadata_passthrough_witness :
  let r : PlainEntity :=
    <["title" := JStr "Pioneer"]>
      (<["id" := JNum 7]>
         (<["inClassSchemaIndexes" := JArr [JNum 0]]>
            (<["classId" := JNum 1]> ∅))) in
  r !! "classId" = Some (JNum 1) /\
  r !! "inClassSchemaIndexes" = Some (JArr [JNum 0]) /\
  r !! "id" = Some (JNum 7).
Proof.
  intros r.
  pose (codec := mkEntityCodec {["title" := mkPropMeta 0 "Text"]} {[0%Z := "title"]}).
  pose (entity := mkEntity 7 1 [0%Z] [mkClassPropertyValue 0 (obj (CText "Pioneer"))]).
  apply (metadata_passthrough entity r (mkWorld codec []) (mkWorld codec [])).
  - reflexivity.
  - intros v propName Hv Hname.
    apply list_elem_of_singleton in Hv. subst v.
    vm_compute in Hname. injection Hname as <-.
    intros Hin. repeat (apply elem_of_cons in Hin as [Heq | Hin]; [discriminate Heq|]).
    apply elem_of_nil in Hin. exact Hin.
Defined.

Lemma toPlainObject_last_value (entity : Entity)
    (pre post : list (ClassPropertyValue CodecRef)) (v : ClassPropertyValue CodecRef)
    (propName : string) (r : PlainEntity) (w w' : World EntityCodec) :
  toPlainObject (with_values entity (pre ++ v :: post)) w = (Return r, w') ->
  propIndexToNameMap (this w) !! in_class_index v = Some propName ->
  propName <> "" ->
  (forall v', v' ∈ post -> propIndexToNameMap (this w) !! in_class_index v' <> Some propName) ->
  exists plain, substrateToPlain (value v) = Return plain /\ r !! propName = Some plain.
Proof.
  intros Hrun Hname Hne Hpost. apply toPlainObject_Return in Hrun as [_ Hrun].
  cbn [with_values entity_values id class_id in_class_schema_indexes] in Hrun.
  rewrite foldM_app in Hrun. unfold bind at 1 in Hrun.
  pose proof (silent_foldM toPlainObject_callback pre toPlainObject_callback_silent) as Hsilent.
  match type of Hrun with
  | context [foldM toPlainObject_callback ?res0 pre w] =>
      specialize (Hsilent res0 w);
      destruct (foldM toPlainObject_callback res0 pre w) as [[acc|e] w1]
  end; [|discriminate Hrun].
  cbn [snd] in Hsilent. subst w1.
  apply foldM_toPlainObject_callback_cons in Hrun as (acc' & Hcb & Hrun).
  apply toPlainObject_callback_Return in Hcb as [_ Hcb]. rewrite Hname in Hcb.
  assert (truthy propName = true) as Htruthy.
  { unfold truthy. destruct (String.eqb_spec propName ""); [contradiction | reflexivity]. }
  rewrite Htruthy in Hcb. destruct Hcb as (plain & Hplain & ->).
  exists plain. split; [exact Hplain|].
  rewrite (foldM_toPlainObject_callback_other _ _ _ _ _ propName Hrun Hpost).
  apply lookup_insert_eq.
Qed.

(** X12. The field of a name holds the decoded form of the last value of
    the record that is mapped to this name: later values of other names
    leave it alone, and earlier values of the same name are overwritten.
    This holds of the names classId, inClassSchemaIndexes and id as well,
    whose metadata such a value replaces. *)
Theorem field_holds_last_value (entity : Entity)
    (pre post : list (ClassPropertyValue CodecRef)) (v : ClassPropertyValue CodecRef)
    (propName : string) (r : PlainEntity) (w w' : World EntityCodec) :
  toPlainObject (with_values entity (pre ++ v :: post)) w = (Return r, w') ->
  propIndexToNameMap (this w) !! in_class_index v = Some propName ->
  propName <> "" ->
  (forall v', v' ∈ post -> propIndexToNameMap (this w) !! in_class_index v' <> Some propName) ->
  exists plain, substrateToPlain (value v) = Return plain /\ r !! propName = Some plain.
Proof. apply toPlainObject_last_value. Qed.

Lemma field_holds_last_value_witness :
  let r : PlainEntity :=
    <["id" := JStr "second"]>
      (<["inClassSchemaIndexes" := JArr [JNum 0]]>
         (<["classId" := JNum 1]> ∅)) in
  exists plain, substrateToPlain (obj (CText "second")) = Return plain /\
                r !! "id" = Some plain.
Proof.
  intros r.
  pose (codec := mkEntityCodec {["id" := mkPropMeta 0 "Text"]} {[0%Z := "id"]}).
  pose (entity := mkEntity 7 1 [0%Z] []).
  pose (first := mkClassPropertyValue 0 (obj (CText "first"))).
  pose (second := mkClassPropertyValue 0 (obj (CText "second"))).
  apply (field_holds_last_value entity [first] [] second "id" r
           (mkWorld codec []) (mkWorld codec [])).
  - reflexivity.
  - vm_compute. reflexivity.
  - discriminate.
  - intros v' Hv'. apply elem_of_nil in Hv'. contradiction.
Defined.

Lemma toPlainObject_keys (entity : Entity) (r : PlainEntity)
    (w w' : World EntityCodec) (k : string) :
  toPlainObject entity w = (Return r, w') ->
  is_Some (r !! k) ->
  k ∈ metadataKeys \/
  exists v, v ∈ entity_values entity /\
            propIndexToNameMap (this w) !! in_class_index v = Some k /\ k <> "".
Proof.
  intros Hrun Hk. apply toPlainObject_Return in Hrun as [_ Hrun].
  destruct (foldM_toPlainObject_callback_keys _ _ _ _ _ k Hrun Hk) as [Hmeta | Hvalue];
    [left | right; exact Hvalue].
  destruct (decide (k = "id")) as [-> | Hid]; [do 2 right; left|].
  rewrite lookup_insert_ne in Hmeta by congruence.
  destruct (decide (k = "inClassSchemaIndexes")) as [-> | Hindexes]; [right; left|].
  rewrite lookup_insert_ne in Hmeta by congruence.
  destruct (decide (k = "classId")) as [-> | Hclass]; [left|].
  rewrite lookup_insert_ne, lookup_empty in Hmeta by congruence.
  destruct Hmeta as [x Hx]. discriminate Hx.
Qed.

(** X13. A decoded object has no field but the three metadata fields and
    the fields named, with a name that is not empty, by the index-to-name
    map for the index of some value of the record. *)
Theorem fields_come_from_values (entity : Entity) (r : PlainEntity)
    (w w' : World EntityCodec) (k : string) :
  toPlainObject entity w = (Return r, w') ->
  is_Some (r !! k) ->
  k ∈ metadataKeys \/
  exists v, v ∈ entity_values entity /\
            propIndexToNameMap (this w) !! in_class_index v = Some k /\ k <> "".
Proof. apply toPlainObject_keys. Qed.

Lemma fields_come_from_values_witness :
  let codec := mkEntityCodec {["title" := mkPropMeta 0 "Text"]} {[0%Z := "title"]} in
  let entity := mkEntity 7 1 [0%Z] [mkClassPropertyValue 0 (obj (CText "Pioneer"))] in
  "title" ∈ metadataKeys \/
  exists v, v ∈ entity_values entity /\
            propIndexToNameMap codec !! in_class_index v = Some "title" /\ "title" <> "".
Proof.
  intros codec entity.
  apply (fields_come_from_values entity
           (<["title" := JStr "Pioneer"]>
              (<["id" := JNum 7]>
                 (<["inClassSchemaIndexes" := JArr [JNum 0]]>
                    (<["classId" := JNum 1]> ∅))))
           (mkWorld codec []) (mkWorld codec []) "title").
  - reflexivity.
  - rewrite lookup_insert_eq. eexists. reflexivity.
Defined.

Lemma foldM_toPlainObject_callback_decodable vs res r (w w' : World EntityCodec) :
  foldM toPlainObject_callback res vs w = (Return r, w') ->
  Forall (decodable (this w)) vs.
Proof.
  revert res. induction vs as [|v vs IH]; intros res Hrun; [constructor|].
  apply foldM_toPlainObject_callback_cons in Hrun as (acc & Hcb & Hrun).
  constructor; [|apply (IH acc Hrun)].
  apply toPlainObject_callback_Return in Hcb as [H53 Hcb].
  split; [exact H53|]. intros propName Hname Htruthy.
  rewrite Hname, Htruthy in Hcb. destruct Hcb as (plain & Hplain & _).
  destruct (value v) as [| |x]; [discriminate Hplain | exact I |].
  apply (substrateToPlain_obj_fits x plain Hplain).
Qed.

(** X14. toPlainObject returns exactly on the records whose identifiers,
    schema indexes and value indexes fit in 53 bits and whose values at an
    index with a name that is not empty are null or codec objects whose
    integers fit in 53 bits; it then leaves the console as it was. A value
    at an index without such a name is not looked at. *)
Theorem toPlainObject_returns_iff (entity : Entity) (w : World EntityCodec) :
  (exists r w', toPlainObject entity w = (Return r, w')) <->
  metadata_fit entity /\ Forall (decodable (this w)) (entity_values entity).
Proof.
  split.
  - intros (r & w' & Hrun). apply toPlainObject_Return in Hrun as [Hmeta Hrun].
    split; [exact Hmeta|]. apply (foldM_toPlainObject_callback_decodable _ _ _ _ _ Hrun).
  - intros [Hmeta Hvalues].
    destruct (toPlainObject_returns entity w Hmeta Hvalues) as [r Hr].
    exists r, w. exact Hr.
Qed.

Lemma filter_True_id {A} (l : list A) : filter (fun _ => True) l = l.
Proof.
  induction l as [|x l IH]; [reflexivity|].
  rewrite filter_cons_True by exact I. rewrite IH. reflexivity.
Qed.

Lemma mapM_silent {St A B} (f : A -> M St B) (l : list A) (w : World St) :
  (forall x, silent (f x)) ->
  mapM f l w = (omap (fun x => fst (f x w)) l, w).
Proof.
  intros Hsilent. induction l as [|x l IH]; [reflexivity|].
  cbn [mapM omap]. unfold bind at 1. pose proof (Hsilent x w) as Hx.
  destruct (f x w) as [[y|e] w1]; cbn [fst snd] in *; subst w1; [|reflexivity].
  unfold bind at 1. rewrite IH.
  destruct (omap (fun x => fst (f x w)) l); reflexivity.
Qed.

Lemma mapM_Return_silent {St A B} (f : A -> M St B) (l : list A) (rs : list B)
    (w w' : World St) :
  (forall x, silent (f x)) ->
  mapM f l w = (Return rs, w') <->
  w' = w /\ Forall2 (fun x r => f x w = (Return r, w)) l rs.
Proof.
  intros Hsilent. rewrite (mapM_silent f l w Hsilent).
  assert (forall x r, fst (f x w) = Return r <-> f x w = (Return r, w)) as Hfst.
  { intros x r. pose proof (Hsilent x w) as Hx.
    destruct (f x w) as [o w1]; cbn [fst snd] in *; subst w1.
    split; [intros ->; reflexivity | intros [= ->]; reflexivity]. }
  split.
  - intros [= Hmap <-]. split; [reflexivity|].
    apply omap_Return in Hmap.
    eapply Forall2_impl; [exact Hmap|]. intros x r. apply Hfst.
  - intros [-> Hall]. f_equal. apply omap_Return.
    eapply Forall2_impl; [exact Hall|]. intros x r. apply Hfst.
Qed.

(** X15. toPlainObjects returns exactly when toPlainObject returns on each
    entity, and its result is then the list of the decoded objects, one per
    entity and in the order of the entities: the filter drops none. The
    console is left as it was. *)
Theorem toPlainObjects_elementwise (entities : list Entity) (rs : list PlainEntity)
    (w w' : World EntityCodec) :
  toPlainObjects entities w = (Return rs, w') <->
  w' = w /\ Forall2 (fun e r => toPlainObject e w = (Return r, w)) entities rs.
Proof.
  rewrite <- (mapM_Return_silent toPlainObject entities rs w w' toPlainObject_silent).
  unfold toPlainObjects, bind, ret.
  destruct (mapM toPlainObject entities w) as [[es|e] w1].
  - rewrite filter_True_id. reflexivity.
  - split; discriminate.
Qed.

(** ** The encoder of an update *)

Lemma toSubstrateUpdate_run (updatedProps : UpdatedProps) (w : World EntityCodec) :
  (forall propName, propName ∈ Object_keys updatedProps ->
     reportable (this w) updatedProps propName) ->
  toSubstrateUpdate updatedProps w =
    (Return (flat_map (fieldEntries (this w) updatedProps) (Object_keys updatedProps)),
     mkWorld (this w)
       (console w ++
          flat_map (fieldDiagnostics (this w) updatedProps) (Object_keys updatedProps))%list).
Proof.
  intros Hkeys. unfold toSubstrateUpdate. rewrite toSubstrateUpdate_loop by exact Hkeys.
  reflexivity.
Qed.

(** What a call of [toSubstrateUpdate] that returns has done. *)
Lemma toSubstrateUpdate_Return (updatedProps : UpdatedProps)
    (res : list (ClassPropertyValue PropertyValue)) (w w' : World EntityCodec) :
  toSubstrateUpdate updatedProps w = (Return res, w') ->
  (forall propName, propName ∈ Object_keys updatedProps ->
     reportable (this w) updatedProps propName) /\
  res = flat_map (fieldEntries (this w) updatedProps) (Object_keys updatedProps) /\
  w' = mkWorld (this w)
         (console w ++
            flat_map (fieldDiagnostics (this w) updatedProps) (Object_keys updatedProps))%list.
Proof.
  intros Hrun.
  assert (forall propName, propName ∈ Object_keys updatedProps ->
            reportable (this w) updatedProps propName) as Hkeys
    by (apply (toSubstrateUpdate_loop_Return _ _ _ _ _ _ Hrun)).
  rewrite (toSubstrateUpdate_run _ _ Hkeys) in Hrun. injection Hrun as <- <-.
  split; [exact Hkeys|]. split; reflexivity.
Qed.

Lemma field_accounted (c : EntityCodec) (updatedProps : UpdatedProps) (propName : string) :
  reportable c updatedProps propName ->
  (length (fieldEntries c updatedProps propName) +
   length (fieldDiagnostics c updatedProps propName))%nat =
    match propNameToMetaMap c !! propName with
    | Some _ => 1%nat
    | None => 0%nat
    end.
Proof.
  unfold reportable, fieldEntries, fieldDiagnostics. intros Hreportable.
  destruct (propNameToMetaMap c !! propName) as [meta|]; [|reflexivity].
  specialize (Hreportable meta).
  destruct (plainToSubstrate _ _) as [codecValue|err]; [reflexivity|].
  destruct (Hreportable err eq_refl eq_refl) as [shown ->]. reflexivity.
Qed.

(** X16. No field of an update is lost without a trace: the number of
    entries that toSubstrateUpdate returns and the number of lines it adds
    to the console make up the number of keys of the update that are in the
    name-to-meta map. *)
Theorem every_mapped_field_is_accounted (updatedProps : UpdatedProps)
    (res : list (ClassPropertyValue PropertyValue)) (w w' : World EntityCodec) :
  toSubstrateUpdate updatedProps w = (Return res, w') ->
  exists diagnostics,
    w' = mkWorld (this w) (console w ++ diagnostics)%list /\
    (length res + length diagnostics)%nat =
      length (filter (fun propName => is_Some (propNameToMetaMap (this w) !! propName))
                (Object_keys updatedProps)).
Proof.
  intros Hrun. apply toSubstrateUpdate_Return in Hrun as (Hkeys & -> & ->).
  eexists. split; [reflexivity|].
  induction (Object_keys updatedProps) as [|k keys IH]; [reflexivity|].
  cbn [flat_map]. rewrite !length_app.
  pose proof (field_accounted (this w) updatedProps k (Hkeys k ltac:(left))) as Hk.
  specialize (IH (fun propName Hin => Hkeys propName ltac:(right; exact Hin))).
  destruct (propNameToMetaMap (this w) !! k) as [meta|] eqn:Hmeta.
  - rewrite filter_cons_True by (rewrite Hmeta; eexists; reflexivity).
    cbn [length]. lia.
  - rewrite filter_cons_False by (rewrite Hmeta; intros [x Hx]; discriminate Hx).
    lia.
Qed.

Lemma every_mapped_field_is_accounted_witness :
  exists diagnostics : list LogEntry, (1 + length diagnostics)%nat = 2%nat.
Proof.
  pose (codec :=
    mkEntityCodec
      {["title" := mkPropMeta 0 "Text"; "odd" := mkPropMeta 1 "Decimal"]}
      {[0%Z := "title"; 1%Z := "odd"]}).
  pose (updatedProps := [("odd", JNum 3); ("stray", JNull); ("title", JStr "Pioneer")]).
  destruct (every_mapped_field_is_accounted updatedProps
              [mkClassPropertyValue 0 (mkPropertyValue "Text" (PV.Text (JStr "Pioneer")))]
              (mkWorld codec [])
              (snd (toSubstrateUpdate updatedProps (mkWorld codec []))))
    as (diagnostics & _ & Hcount).
  - reflexivity.
  - exists diagnostics. exact Hcount.
Defined.

Lemma toSubstrateUpdate_entries (updatedProps : UpdatedProps)
    (res : list (ClassPropertyValue PropertyValue)) (w w' : World EntityCodec)
    (entry : ClassPropertyValue PropertyValue) :
  toSubstrateUpdate updatedProps w = (Return res, w') ->
  entry ∈ res ->
  exists propName meta,
    propName ∈ Object_keys updatedProps /\
    propNameToMetaMap (this w) !! propName = Some meta /\
    in_class_index entry = index meta /\
    plainToSubstrate (type meta) (Object_get updatedProps propName) = Return (value entry) /\
    pv_type (value entry) = type meta /\
    type meta ∈ propertyTypeNames.
Proof.
  intros Hrun Hentry. apply toSubstrateUpdate_Return in Hrun as (_ & -> & _).
  apply list_elem_of_In, in_flat_map in Hentry as (propName & Hkey & Hentry).
  apply list_elem_of_In in Hkey.
  unfold fieldEntries in Hentry.
  destruct (propNameToMetaMap (this w) !! propName) as [meta|] eqn:Hmeta; [|contradiction].
  destruct (plainToSubstrate (type meta) (Object_get updatedProps propName))
    as [codecValue|e] eqn:Hcv; [|contradiction].
  destruct Hentry as [<- | []].
  exists propName, meta. cbn [in_class_index value].
  repeat split; try assumption; try reflexivity.
  - apply (plainToSubstrate_pv_type _ _ _ Hcv).
  - destruct (decide (type meta ∈ propertyTypeNames)) as [Hin | Hnot]; [exact Hin|].
    rewrite (unknown_type_name_throws _ _ Hnot) in Hcv. discriminate Hcv.
Qed.

(** X17. Every entry that toSubstrateUpdate returns comes from a key of
    the update that is in the name-to-meta map: its index is the index
    recorded for the key, its typed value is the encoding of the value of
    the key with the type recorded, this type is one of the fixed set, and
    the typed value is tagged with it. *)
Theorem entries_come_from_mapped_keys (updatedProps : UpdatedProps)
    (res : list (ClassPropertyValue PropertyValue)) (w w' : World EntityCodec)
    (entry : ClassPropertyValue PropertyValue) :
  toSubstrateUpdate updatedProps w = (Return res, w') ->
  entry ∈ res ->
  exists propName meta,
    propName ∈ Object_keys updatedProps /\
    propNameToMetaMap (this w) !! propName = Some meta /\
    in_class_index entry = index meta /\
    plainToSubstrate (type meta) (Object_get updatedProps propName) = Return (value entry) /\
    pv_type (value entry) = type meta /\
    type meta ∈ propertyTypeNames.
Proof. apply toSubstrateUpdate_entries. Qed.

Lemma entries_come_from_mapped_keys_witness :
  exists propName meta,
    propName ∈ ["odd"; "title"] /\
    ({["title" := mkPropMeta 0 "Text"; "odd" := mkPropMeta 1 "Decimal"]} : gmap string PropMeta)
      !! propName = Some meta /\
    0%Z = index meta.
Proof.
  pose (codec :=
    mkEntityCodec
      {["title" := mkPropMeta 0 "Text"; "odd" := mkPropMeta 1 "Decimal"]}
      {[0%Z := "title"; 1%Z := "odd"]}).
  pose (updatedProps := [("odd", JNum 3); ("title", JStr "Pioneer")]).
  pose (entry := mkClassPropertyValue 0 (mkPropertyValue "Text" (PV.Text (JStr "Pioneer")))).
  destruct (entries_come_from_mapped_keys updatedProps [entry] (mkWorld codec [])
              (snd (toSubstrateUpdate updatedProps (mkWorld codec []))) entry)
    as (propName & meta & Hkey & Hmeta & Hindex & _).
  - reflexivity.
  - left.
  - exists propName, meta. split; [exact Hkey|]. split; [exact Hmeta | exact Hindex].
Defined.

(** X18. toSubstrateUpdate returns the empty vector and leaves the console
    as it was exactly when no key of the update is in the name-to-meta map;
    so it does for the empty update and for an instance of an empty
    schema. *)
Theorem nothing_encoded_iff_no_key_is_mapped (updatedProps : UpdatedProps)
    (w : World EntityCodec) :
  toSubstrateUpdate updatedProps w = (Return [], w) <->
  forall propName, propName ∈ Object_keys updatedProps ->
    propNameToMetaMap (this w) !! propName = None.
Proof.
  split.
  - intros Hrun propName Hkey.
    apply toSubstrateUpdate_Return in Hrun as (Hkeys & Hentries & Hworld).
    assert (flat_map (fieldDiagnostics (this w) updatedProps) (Object_keys updatedProps) = [])
      as Hdiagnostics.
    { destruct w as [c con]. cbn [this console] in Hworld. injection Hworld as Hcon.
      apply (app_inv_head con). rewrite app_nil_r. symmetry. exact Hcon. }
    pose proof (field_accounted (this w) updatedProps propName (Hkeys propName Hkey))
      as Hcount.
    destruct (propNameToMetaMap (this w) !! propName) as [meta|]; [|reflexivity].
    exfalso. apply list_elem_of_In in Hkey.
    assert (fieldEntries (this w) updatedProps propName = []) as Hnone.
    { destruct (fieldEntries (this w) updatedProps propName) as [|entry l] eqn:Hfield;
        [reflexivity|].
      assert (In entry (flat_map (fieldEntries (this w) updatedProps)
                          (Object_keys updatedProps))) as Hin.
      { apply in_flat_map. exists propName. split; [exact Hkey|]. rewrite Hfield. left.
        reflexivity. }
      rewrite <- Hentries in Hin. contradiction. }
    assert (fieldDiagnostics (this w) updatedProps propName = []) as Hquiet.
    { destruct (fieldDiagnostics (this w) updatedProps propName) as [|line l] eqn:Hfield;
        [reflexivity|].
      assert (In line (flat_map (fieldDiagnostics (this w) updatedProps)
                         (Object_keys updatedProps))) as Hin.
      { apply in_flat_map. exists propName. split; [exact Hkey|]. rewrite Hfield. left.
        reflexivity. }
      rewrite Hdiagnostics in Hin. contradiction. }
    rewrite Hnone, Hquiet in Hcount. discriminate Hcount.
  - intros Hnone.
    rewrite toSubstrateUpdate_run.
    + assert (forall keys,
                (forall propName, propName ∈ keys ->
                   propNameToMetaMap (this w) !! propName = None) ->
                flat_map (fieldEntries (this w) updatedProps) keys = [] /\
                flat_map (fieldDiagnostics (this w) updatedProps) keys = []) as Hempty.
      { induction keys as [|k keys IH]; intros Hkeys; [split; reflexivity|].
        cbn [flat_map]. unfold fieldEntries at 1, fieldDiagnostics at 1.
        rewrite (Hkeys k) by left. cbn [app].
        apply IH. intros propName Hin. apply Hkeys. right. exact Hin. }
      destruct (Hempty _ Hnone) as [-> ->]. rewrite app_nil_r, world_eta. reflexivity.
    + intros propName Hkey meta err Hmeta _. rewrite (Hnone propName Hkey) in Hmeta.
      discriminate Hmeta.
Qed.

Lemma Object_get_app_l (o1 o2 : UpdatedProps) (key : string) :
  key ∈ Object_keys o1 -> Object_get (o1 ++ o2) key = Object_get o1 key.
Proof.
  induction o1 as [|[k v] o1 IH]; intros Hkey.
  - apply elem_of_nil in Hkey. contradiction.
  - cbn [app Object_get]. destruct (String.eqb_spec k key) as [_ | Hne]; [reflexivity|].
    apply IH. unfold Object_keys in Hkey. rewrite fmap_cons in Hkey.
    apply elem_of_cons in Hkey as [Heq | Hkey]; [|exact Hkey].
    cbn in Heq. congruence.
Qed.

Lemma Object_get_app_r (o1 o2 : UpdatedProps) (key : string) :
  key ∉ Object_keys o1 -> Object_get (o1 ++ o2) key = Object_get o2 key.
Proof.
  induction o1 as [|[k v] o1 IH]; intros Hkey; [reflexivity|].
  unfold Object_keys in Hkey. rewrite fmap_cons in Hkey.
  apply not_elem_of_cons in Hkey as [Hne Hkey].
  cbn [app Object_get]. destruct (String.eqb_spec k key) as [Heq | _].
  - cbn in Hne. congruence.
  - apply IH. exact Hkey.
Qed.

Lemma flat_map_agree {A B} (f g : A -> list B) (l : list A) :
  (forall x, x ∈ l -> f x = g x) -> flat_map f l = flat_map g l.
Proof.
  induction l as [|x l IH]; intros Hfg; [reflexivity|].
  cbn [flat_map]. rewrite (Hfg x) by left. rewrite IH; [reflexivity|].
  intros y Hy. apply Hfg. right. exact Hy.
Qed.

(** What a field contributes depends on the update through the value of
    the field alone. *)
Lemma field_of_same_value (c : EntityCodec) (o o' : UpdatedProps) (propName : string) :
  Object_get o propName = Object_get o' propName ->
  fieldEntries c o propName = fieldEntries c o' propName /\
  fieldDiagnostics c o propName = fieldDiagnostics c o' propName /\
  (reportable c o propName <-> reportable c o' propName).
Proof.
  intros Hsame. unfold fieldEntries, fieldDiagnostics, reportable. rewrite Hsame.
  split; [reflexivity|]. split; reflexivity.
Qed.

(** X19. An update made of two parts without a common key is encoded as
    the first part followed by the second: it returns exactly when the
    first part returns and the second then returns, and the entries are
    then those of the first part followed by those of the second, and the
    console is as the second part leaves it. *)
Theorem update_of_two_parts (u1 u2 : UpdatedProps)
    (res : list (ClassPropertyValue PropertyValue)) (w w' : World EntityCodec) :
  (forall propName, propName ∈ Object_keys u2 -> propName ∉ Object_keys u1) ->
  toSubstrateUpdate (u1 ++ u2) w = (Return res, w') <->
  exists res1 res2 w1,
    toSubstrateUpdate u1 w = (Return res1, w1) /\
    toSubstrateUpdate u2 w1 = (Return res2, w') /\
    res = (res1 ++ res2)%list.
Proof.
  intros Hdisjoint.
  assert (forall k, k ∈ Object_keys u1 -> Object_get (u1 ++ u2) k = Object_get u1 k) as Hleft
    by (intros k Hk; apply Object_get_app_l; exact Hk).
  assert (forall k, k ∈ Object_keys u2 -> Object_get (u1 ++ u2) k = Object_get u2 k) as Hright
    by (intros k Hk; apply Object_get_app_r, Hdisjoint; exact Hk).
  assert (Object_keys (u1 ++ u2) = (Object_keys u1 ++ Object_keys u2)%list) as Hkeys
    by (unfold Object_keys; apply fmap_app).
  assert ((forall k, k ∈ Object_keys (u1 ++ u2) -> reportable (this w) (u1 ++ u2) k) <->
          (forall k, k ∈ Object_keys u1 -> reportable (this w) u1 k) /\
          (forall k, k ∈ Object_keys u2 -> reportable (this w) u2 k)) as Hreportable.
  { rewrite Hkeys. split.
    - intros Hall. split; intros k Hk.
      + apply (field_of_same_value (this w) _ _ k (Hleft k Hk)).
        apply Hall. apply elem_of_app. left. exact Hk.
      + apply (field_of_same_value (this w) _ _ k (Hright k Hk)).
        apply Hall. apply elem_of_app. right. exact Hk.
    - intros [H1 H2] k Hk. apply elem_of_app in Hk as [Hk | Hk].
      + apply (field_of_same_value (this w) _ _ k (Hleft k Hk)). apply H1. exact Hk.
      + apply (field_of_same_value (this w) _ _ k (Hright k Hk)). apply H2. exact Hk. }
  assert ((forall k, k ∈ Object_keys u1 -> reportable (this w) u1 k) ->
          (forall k, k ∈ Object_keys u2 -> reportable (this w) u2 k) ->
          toSubstrateUpdate (u1 ++ u2) w =
            (Return (flat_map (fieldEntries (this w) u1) (Object_keys u1) ++
                     flat_map (fieldEntries (this w) u2) (Object_keys u2))%list,
             mkWorld (this w)
               ((console w ++ flat_map (fieldDiagnostics (this w) u1) (Object_keys u1)) ++
                flat_map (fieldDiagnostics (this w) u2) (Object_keys u2))%list)) as Hrun.
  { intros H1 H2. rewrite toSubstrateUpdate_run by (apply Hreportable; split; assumption).
    rewrite Hkeys, !flat_map_app.
    rewrite (flat_map_agree (fieldEntries (this w) (u1 ++ u2)) (fieldEntries (this w) u1)
               (Object_keys u1))
      by (intros k Hk; apply (field_of_same_value (this w) _ _ k (Hleft k Hk))).
    rewrite (flat_map_agree (fieldEntries (this w) (u1 ++ u2)) (fieldEntries (this w) u2)
               (Object_keys u2))
      by (intros k Hk; apply (field_of_same_value (this w) _ _ k (Hright k Hk))).
    rewrite (flat_map_agree (fieldDiagnostics (this w) (u1 ++ u2))
               (fieldDiagnostics (this w) u1) (Object_keys u1))
      by (intros k Hk; apply (field_of_same_value (this w) _ _ k (Hleft k Hk))).
    rewrite (flat_map_agree (fieldDiagnostics (this w) (u1 ++ u2))
               (fieldDiagnostics (this w) u2) (Object_keys u2))
      by (intros k Hk; apply (field_of_same_value (this w) _ _ k (Hright k Hk))).
    rewrite app_assoc. reflexivity. }
  split.
  - intros Hboth.
    pose proof (toSubstrateUpdate_Return _ _ _ _ Hboth) as (Hall & _ & _).
    apply Hreportable in Hall as [H1 H2].
    rewrite (Hrun H1 H2) in Hboth. injection Hboth as <- <-.
    do 3 eexists. split; [apply (toSubstrateUpdate_run u1 w H1)|].
    split; [|reflexivity].
    rewrite toSubstrateUpdate_run by exact H2. reflexivity.
  - intros (res1 & res2 & w1 & Hfirst & Hsecond & ->).
    apply toSubstrateUpdate_Return in Hfirst as (H1 & -> & ->).
    apply toSubstrateUpdate_Return in Hsecond as (H2 & -> & ->).
    cbn [this console] in *. rewrite (Hrun H1 H2). reflexivity.
Qed.

Lemma update_of_two_parts_witness :
  let codec :=
    mkEntityCodec
      {["title" := mkPropMeta 0 "Text"; "public" := mkPropMeta 1 "Bool"]}
      {[0%Z := "title"; 1%Z := "public"]} in
  exists res1 res2 w1,
    toSubstrateUpdate [("public", JStr "yes")] (mkWorld codec []) = (Return res1, w1) /\
    toSubstrateUpdate [("title", JStr "Pioneer")] w1 = (Return res2, mkWorld codec []) /\
    [mkClassPropertyValue 1 (mkPropertyValue "Bool" (PV.Bool true));
     mkClassPropertyValue 0 (mkPropertyValue "Text" (PV.Text (JStr "Pioneer")))]
      = (res1 ++ res2)%list.
Proof.
  intros codec.
  apply (update_of_two_parts [("public", JStr "yes")] [("title", JStr "Pioneer")]
           _ (mkWorld codec []) (mkWorld codec [])).
  - intros propName Hin Hin'.
    apply list_elem_of_singleton in Hin. apply list_elem_of_singleton in Hin'.
    subst propName. discriminate Hin'.
  - reflexivity.
Defined.

(** ** An instance and its schema *)

Section Schema.

Variable camelCase : string -> string.

(** X20. Every entry of an update encoded by the instance built from a
    schema is within the schema: its index is a position of the schema, its
    typed value is tagged with the type declared for the property at that
    position, and the canonical name of that property is a key of the
    update. *)
Theorem encoded_entries_fit_schema (entityClass : Class_) (con : list LogEntry)
    (updatedProps : UpdatedProps) (res : list (ClassPropertyValue PropertyValue))
    (w' : World EntityCodec) (entry : ClassPropertyValue PropertyValue) :
  toSubstrateUpdate updatedProps (mkWorld (new_EntityCodec camelCase entityClass) con)
    = (Return res, w') ->
  entry ∈ res ->
  (0 <= in_class_index entry < Z.of_nat (length (properties entityClass)))%Z /\
  exists p,
    properties entityClass !! Z.to_nat (in_class_index entry) = Some p /\
    pv_type (value entry) = prop_type p /\
    fieldName camelCase p ∈ Object_keys updatedProps.
Proof.
  intros Hrun Hentry.
  destruct (toSubstrateUpdate_entries _ _ _ _ _ Hrun Hentry)
    as (propName & meta & Hkey & Hmeta & Hindex & _ & Htype & _).
  cbn [this] in Hmeta.
  apply new_EntityCodec_name_lookup in Hmeta as (i & p & Hi & <- & -> & _).
  cbn [index type] in *. rewrite Hindex, Nat2Z.id. split.
  - apply lookup_lt_Some in Hi. lia.
  - exists p. split; [exact Hi|]. split; [exact Htype | exact Hkey].
Qed.

(** X21. An object decoded by the instance built from a schema has no
    field but the three metadata fields and fields named by canonical names
    of the schema. *)
Theorem decoded_fields_fit_schema (entityClass : Class_) (con : list LogEntry)
    (entity : Entity) (r : PlainEntity) (w' : World EntityCodec) (k : string) :
  toPlainObject entity (mkWorld (new_EntityCodec camelCase entityClass) con) = (Return r, w') ->
  is_Some (r !! k) ->
  k ∈ metadataKeys \/ k ∈ fieldNames camelCase entityClass.
Proof.
  intros Hrun Hk.
  destruct (toPlainObject_keys _ _ _ _ _ Hrun Hk) as [Hmeta | (v & _ & Hname & _)];
    [left; exact Hmeta | right].
  cbn [this] in Hname. rewrite new_EntityCodec_index_lookup in Hname.
  destruct (0 <=? in_class_index v)%Z; [|discriminate Hname].
  destruct (properties entityClass !! Z.to_nat (in_class_index v)) as [p|] eqn:Hp;
    [|discriminate Hname].
  injection Hname as <-. unfold fieldNames. apply list_elem_of_fmap.
  exists p. split; [reflexivity|]. apply list_elem_of_lookup. eexists. exact Hp.
Qed.

(** X22. With a schema whose canonical names are pairwise distinct, the
    field of a decoded object named after the property at position i, when
    this name is not empty, holds the decoded form of the last value of the
    record whose index is i. *)
Theorem decoded_field_of_property (entityClass : Class_) (con : list LogEntry)
    (entity : Entity) (pre post : list (ClassPropertyValue CodecRef))
    (v : ClassPropertyValue CodecRef) (i : nat) (p : Property)
    (r : PlainEntity) (w' : World EntityCodec) :
  NoDup (fieldNames camelCase entityClass) ->
  properties entityClass !! i = Some p ->
  fieldName camelCase p <> "" ->
  in_class_index v = Z.of_nat i ->
  (forall v', v' ∈ post -> in_class_index v' <> Z.of_nat i) ->
  toPlainObject (with_values entity (pre ++ v :: post))
    (mkWorld (new_EntityCodec camelCase entityClass) con) = (Return r, w') ->
  exists plain,
    substrateToPlain (value v) = Return plain /\ r !! fieldName camelCase p = Some plain.
Proof.
  intros Hnd Hp Hne Hv Hpost Hrun.
  apply (toPlainObject_last_value entity pre post v (fieldName camelCase p) r _ w' Hrun).
  - cbn [this]. rewrite new_EntityCodec_index_lookup, Hv.
    destruct (Z.leb_spec 0 (Z.of_nat i)) as [_ | Hneg]; [|lia].
    rewrite Nat2Z.id, Hp. reflexivity.
  - exact Hne.
  - intros v' Hv' Hname. cbn [this] in Hname.
    rewrite new_EntityCodec_index_lookup in Hname.
    destruct (Z.leb_spec 0 (in_class_index v')) as [Hpos | _]; [|discriminate Hname].
    destruct (properties entityClass !! Z.to_nat (in_class_index v')) as [q|] eqn:Hq;
      [|discriminate Hname].
    injection Hname as Hsame.
    apply (Hpost v' Hv').
    assert (Z.to_nat (in_class_index v') = i) as Hi; [|lia].
    unfold fieldNames in Hnd.
    apply (NoDup_lookup _ _ _ (fieldName camelCase p) Hnd).
    + rewrite list_lookup_fmap, Hq. cbn. f_equal. exact Hsame.
    + rewrite list_lookup_fmap, Hp. reflexivity.
Qed.

End Schema.

Lemma encoded_entries_fit_schema_witness :
  let entityClass := mkClass [mkProperty "Title" "Text"; mkProperty "Is Public" "Bool"] in
  let entry := mkClassPropertyValue 1 (mkPropertyValue "Bool" (PV.Bool true)) in
  (0 <= in_class_index entry < 2)%Z /\
  exists p,
    properties entityClass !! Z.to_nat (in_class_index entry) = Some p /\
    pv_type (value entry) = prop_type p /\
    fieldName camelCase_words p ∈ ["isPublic"; "stray"].
Proof.
  intros entityClass entry.
  pose (updatedProps := [("isPublic", JStr "Yes"); ("stray", JNum 2)]).
  apply (encoded_entries_fit_schema camelCase_words entityClass [] updatedProps [entry]
           (snd (toSubstrateUpdate updatedProps
                   (mkWorld (new_EntityCodec camelCase_words entityClass) [])))).
  - reflexivity.
  - left.
Defined.

Lemma decoded_fields_fit_schema_witness :
  let entityClass := mkClass [mkProperty "Title" "Text"; mkProperty "Is Public" "Bool"] in
  "title" ∈ metadataKeys \/ "title" ∈ fieldNames camelCase_words entityClass.
Proof.
  intros entityClass.
  pose (entity := mkEntity 7 1 [0%Z] [mkClassPropertyValue 0 (obj (CText "Pioneer"))]).
  apply (decoded_fields_fit_schema camelCase_words entityClass [] entity
           (<["title" := JStr "Pioneer"]>
              (<["id" := JNum 7]>
                 (<["inClassSchemaIndexes" := JArr [JNum 0]]>
                    (<["classId" := JNum 1]> ∅))))
           (mkWorld (new_EntityCodec camelCase_words entityClass) [])).
  - reflexivity.
  - rewrite lookup_insert_eq. eexists. reflexivity.
Defined.

Lemma decoded_field_of_property_witness :
  let r : PlainEntity :=
    <["isPublic" := JBool true]>
      (<["id" := JNum 7]>
         (<["inClassSchemaIndexes" := JArr [JNum 0]]>
            (<["classId" := JNum 1]> ∅))) in
  exists plain,
    substrateToPlain (obj (CBool true)) = Return plain /\ r !! "isPublic" = Some plain.
Proof.
  intros r.
  pose (entityClass := mkClass [mkProperty "Title" "Text"; mkProperty "Is Public" "Bool"]).
  pose (entity := mkEntity 7 1 [0%Z] []).
  pose (stale := mkClassPropertyValue 1 (obj (CBool false))).
  pose (fresh := mkClassPropertyValue 1 (obj (CBool true))).
  apply (decoded_field_of_property camelCase_words entityClass [] entity [stale] [] fresh 1
           (mkProperty "Is Public" "Bool") r
           (mkWorld (new_EntityCodec camelCase_words entityClass) [])).
  - apply (bool_decide_unpack _). vm_compute. exact I.
  - reflexivity.
  - discriminate.
  - reflexivity.
  - intros v' Hv'. apply elem_of_nil in Hv'. contradiction.
  - reflexivity.
Defined.
